(** * Diagram builder system: shallow embedding of [main.cpp]

    The program composes several object patterns around one facade,
    [DiagramFactory]: observers attached to diagrams, a flyweight cache of
    figures, singleton builders driven by a director, and commands kept on
    an undo and a redo stack.  All of its behaviour is either text written
    to [cout] or a mutation of process-wide objects, so the embedding is a
    state-and-failure monad over one record, [World], holding exactly the
    mutable objects of the program. *)

From Stdlib Require Import String Ascii.
From stdpp Require Import gmap strings list.

(** ** Objects of the program *)

(** The concrete [DrawSubscriber] classes.  Both are stateless; a
    [shared_ptr<DrawSubscriber>] is modelled by the class of its target. *)
Inductive DrawSubscriber : Type :=
  | RegSub
  | ContrastImageSub.

(** The concrete flyweights.  Each carries the [type] string of the base
    class and its own [subscribers] vector (in [push_back] order). *)
Inductive FlyweightFigure : Type :=
  | ColoredFigure (type : string) (subscribers : list DrawSubscriber)
  | BWFigure (type : string) (subscribers : list DrawSubscriber).

(** A [CreateGraphCommand].  The object is immutable once constructed, so a
    [shared_ptr<Command>] is modelled by the object's fields together with
    [cmd_id], the allocation number that [make_shared] gave it: two handles
    denote the same object exactly when they agree on [cmd_id].  The
    [factory] field always points to the facade's only [GraphFactory],
    which has no state. *)
Record CreateGraphCommand : Type := mkCommand {
  cmd_id : nat;
  cmd_type : string;
  cmd_coord : string
}.

(** The mutable state of the process.
    - [cout]: the text written so far, one entry per output statement,
      oldest first;
    - [BarBuilder_coord], [LineBuilder_coord]: the [coord] field of the two
      builder singletons;
    - [figures]: the objects created by [make_shared<ColoredFigure>] and
      [make_shared<BWFigure>]; a [shared_ptr<FlyweightFigure>] is an index
      into this list;
    - [pool]: the map of the [FlyweightFactory] inside the [FigureFactory]
      singleton;
    - [next_cmd]: number of commands allocated so far;
    - [undoStack], [redoStack]: the stacks of the facade's [Undo] and
      [Redo] managers, top first. *)
Record World : Type := mkWorld {
  cout : list string;
  BarBuilder_coord : string;
  LineBuilder_coord : string;
  figures : list FlyweightFigure;
  pool : gmap string nat;
  next_cmd : nat;
  undoStack : list CreateGraphCommand;
  redoStack : list CreateGraphCommand
}.

Definition set_cout (v : list string) (w : World) : World :=
  mkWorld v (BarBuilder_coord w) (LineBuilder_coord w) (figures w) (pool w)
          (next_cmd w) (undoStack w) (redoStack w).
Definition set_BarBuilder_coord (v : string) (w : World) : World :=
  mkWorld (cout w) v (LineBuilder_coord w) (figures w) (pool w)
          (next_cmd w) (undoStack w) (redoStack w).
Definition set_LineBuilder_coord (v : string) (w : World) : World :=
  mkWorld (cout w) (BarBuilder_coord w) v (figures w) (pool w)
          (next_cmd w) (undoStack w) (redoStack w).
Definition set_figures (v : list FlyweightFigure) (w : World) : World :=
  mkWorld (cout w) (BarBuilder_coord w) (LineBuilder_coord w) v (pool w)
          (next_cmd w) (undoStack w) (redoStack w).
Definition set_pool (v : gmap string nat) (w : World) : World :=
  mkWorld (cout w) (BarBuilder_coord w) (LineBuilder_coord w) (figures w) v
          (next_cmd w) (undoStack w) (redoStack w).
Definition set_next_cmd (v : nat) (w : World) : World :=
  mkWorld (cout w) (BarBuilder_coord w) (LineBuilder_coord w) (figures w)
          (pool w) v (undoStack w) (redoStack w).
Definition set_undoStack (v : list CreateGraphCommand) (w : World) : World :=
  mkWorld (cout w) (BarBuilder_coord w) (LineBuilder_coord w) (figures w)
          (pool w) (next_cmd w) v (redoStack w).
Definition set_redoStack (v : list CreateGraphCommand) (w : World) : World :=
  mkWorld (cout w) (BarBuilder_coord w) (LineBuilder_coord w) (figures w)
          (pool w) (next_cmd w) (undoStack w) v.

(** The state at the start of [main]: nothing printed, default-constructed
    builders, an empty cache and empty stacks. *)
Definition initial : World :=
  mkWorld [] EmptyString EmptyString [] ∅ 0 [] [].

(** ** The monad of statements

    A statement maps the state to a result and a new state, or to [None]
    when it would dereference a null or dangling pointer. *)
Definition M (A : Type) : Type := World → option (A * World).

#[global] Instance M_ret : MRet M := λ A a w, Some (a, w).
#[global] Instance M_bind : MBind M := λ A B f m w,
  match m w with
  | Some (a, w') => f a w'
  | None => None
  end.

Definition fail {A : Type} : M A := λ _, None.
Definition gets {A : Type} (f : World → A) : M A := λ w, Some (f w, w).
Definition modify (f : World → World) : M unit := λ w, Some (tt, f w).

(** The state a statement ends in. *)
Definition exec {A : Type} (m : M A) (w : World) : option World :=
  snd <$> m w.

(** ** Output *)

Definition nl : string := String (ascii_of_nat 10) EmptyString.
Definition endl : string := nl.

(** One output statement [cout << ... ;] appends its whole text. *)
Definition print (s : string) : M unit :=
  modify (λ w, set_cout (cout w ++ [s]) w).

(** ** Observer: subscribers and the diagrams that notify them *)

Definition notify (s : DrawSubscriber) (message : string) : M unit :=
  match s with
  | RegSub => print ("[Regular Subscriber] " +:+ message +:+ endl)
  | ContrastImageSub =>
      print ("[Contrast Image Subscriber] " +:+ message +:+ endl)
  end.

(** [for (auto& s : subscribers) s->notify(msg);] — the same private method
    in [Graph], [Figure], [ColoredFigure] and [BWFigure]. *)
Fixpoint notifySubscribers (subscribers : list DrawSubscriber) (msg : string)
  : M unit :=
  match subscribers with
  | [] => mret tt
  | s :: rest => notify s msg ;; notifySubscribers rest msg
  end.

Record Graph : Type := mkGraph { Graph_subscribers : list DrawSubscriber }.
Record Figure : Type := mkFigure { Figure_subscribers : list DrawSubscriber }.

Module Graph.
Definition calc (g : Graph) : M unit :=
  print ("Calculating Graph" +:+ nl) ;;
  notifySubscribers (Graph_subscribers g) "Graph calculated".
Definition draw (g : Graph) : M unit :=
  print ("[Graph] Drawing graphical representation." +:+ nl) ;;
  notifySubscribers (Graph_subscribers g) "Graph drawn".
Definition drag (g : Graph) : M unit :=
  print ("Dragging Graph" +:+ nl) ;;
  notifySubscribers (Graph_subscribers g) "Graph dragged".
Definition attachSubscriber (g : Graph) (sub : DrawSubscriber) : Graph :=
  mkGraph (Graph_subscribers g ++ [sub]).
End Graph.

Module Figure.
Definition calc (f : Figure) : M unit :=
  print ("Calculating Figure" +:+ nl) ;;
  notifySubscribers (Figure_subscribers f) "Figure calculated".
Definition draw (f : Figure) : M unit :=
  print ("[Figure Stub] Drawing textual stub." +:+ nl) ;;
  notifySubscribers (Figure_subscribers f) "Figure drawn".
Definition drag (f : Figure) : M unit :=
  print ("Dragging Figure" +:+ nl) ;;
  notifySubscribers (Figure_subscribers f) "Figure dragged".
Definition attachSubscriber (f : Figure) (sub : DrawSubscriber) : Figure :=
  mkFigure (Figure_subscribers f ++ [sub]).
End Figure.

(** The export visitor: one [visit] overload per diagram class. *)
Module ExportVisitor.
Definition visit_Graph (g : Graph) : M unit :=
  print ("Exporting Graph as PNG..." +:+ nl).
Definition visit_Figure (f : Figure) : M unit :=
  print ("Exporting Figure as JPG..." +:+ nl).
End ExportVisitor.

(** The abstract base [Diagram]: a call through a [Diagram] reference
    dispatches on the dynamic class. *)
Inductive Diagram : Type :=
  | IsGraph (g : Graph)
  | IsFigure (f : Figure).

Module Diagram.
Definition subscribers (d : Diagram) : list DrawSubscriber :=
  match d with
  | IsGraph g => Graph_subscribers g
  | IsFigure f => Figure_subscribers f
  end.
Definition calc (d : Diagram) : M unit :=
  match d with IsGraph g => Graph.calc g | IsFigure f => Figure.calc f end.
Definition draw (d : Diagram) : M unit :=
  match d with IsGraph g => Graph.draw g | IsFigure f => Figure.draw f end.
Definition drag (d : Diagram) : M unit :=
  match d with IsGraph g => Graph.drag g | IsFigure f => Figure.drag f end.
Definition attachSubscriber (d : Diagram) (sub : DrawSubscriber) : Diagram :=
  match d with
  | IsGraph g => IsGraph (Graph.attachSubscriber g sub)
  | IsFigure f => IsFigure (Figure.attachSubscriber f sub)
  end.
(** [accept(&exporter)]: the diagram hands itself to the matching [visit]. *)
Definition accept (d : Diagram) : M unit :=
  match d with
  | IsGraph g => ExportVisitor.visit_Graph g
  | IsFigure f => ExportVisitor.visit_Figure f
  end.
End Diagram.

(** ** Proxy *)

Module DrawGraph.
Definition draw : M unit :=
  print ("[Graph Proxy] Drawing graphical + textual stub" +:+ nl).
End DrawGraph.

(** ** Flyweight figures and their cache *)

(** [s.find(pat)]: position of the first occurrence of [pat] in [s];
    [None] stands for [string::npos]. *)
Definition find (s pat : string) : option nat := index 0 pat s.

(** Allocation of a flyweight, and access through a handle. *)
Definition make_shared (f : FlyweightFigure) : M nat :=
  λ w, Some (length (figures w), set_figures (figures w ++ [f]) w).
Definition deref (p : nat) : M FlyweightFigure :=
  λ w, match figures w !! p with Some f => Some (f, w) | None => None end.
Definition store (p : nat) (f : FlyweightFigure) : M unit :=
  modify (λ w, set_figures (<[p := f]> (figures w)) w).

Module FlyweightFigure.
Definition type (f : FlyweightFigure) : string :=
  match f with ColoredFigure t _ | BWFigure t _ => t end.
Definition subscribers (f : FlyweightFigure) : list DrawSubscriber :=
  match f with ColoredFigure _ l | BWFigure _ l => l end.
Definition is_colored (f : FlyweightFigure) : bool :=
  match f with ColoredFigure _ _ => true | BWFigure _ _ => false end.

(** [ColoredFigure::draw] and [BWFigure::draw] on the object itself. *)
Definition draw_obj (f : FlyweightFigure) : M unit :=
  match f with
  | ColoredFigure type subscribers =>
      print ("[Colored Flyweight] Drawing colored figure of type: "
             +:+ type +:+ nl) ;;
      notifySubscribers subscribers "Colored Figure drawn"
  | BWFigure type subscribers =>
      print ("[B/W Flyweight] Drawing black and white figure of type: "
             +:+ type +:+ nl) ;;
      notifySubscribers subscribers "B/W Figure drawn"
  end.
Definition attach_obj (f : FlyweightFigure) (sub : DrawSubscriber)
  : FlyweightFigure :=
  match f with
  | ColoredFigure type subscribers => ColoredFigure type (subscribers ++ [sub])
  | BWFigure type subscribers => BWFigure type (subscribers ++ [sub])
  end.

(** [fig->draw()] and [fig->attachSubscriber(sub)] through a handle. *)
Definition draw (fig : nat) : M unit :=
  f ← deref fig; draw_obj f.
Definition attachSubscriber (fig : nat) (sub : DrawSubscriber) : M unit :=
  f ← deref fig; store fig (attach_obj f sub).
End FlyweightFigure.

Module FlyweightFactory.
(** [pool[type] = p;] *)
Definition pool_assign (type : string) (p : nat) : M unit :=
  modify (λ w, set_pool (<[type := p]> (pool w)) w).

(** The final [return pool[type];].  For an absent key [operator[]] would
    hand out a null handle, which every caller dereferences at once; that
    case is the failure of the monad. *)
Definition pool_at (type : string) : M nat :=
  λ w, match pool w !! type with Some p => Some (p, w) | None => None end.

Definition getFigure (type : string) : M nat :=
  pl ← gets pool;
  (if decide (pl !! type = None) then
     match find type "Color" with
     | Some _ => p ← make_shared (ColoredFigure type []); pool_assign type p
     | None => p ← make_shared (BWFigure type []); pool_assign type p
     end
   else mret tt) ;;
  pool_at type.
End FlyweightFactory.

(** ** Builders and their director *)

(** A [Builder*]: the program only ever takes the address of one of the two
    singletons. *)
Inductive Builder : Type :=
  | BarBuilder
  | LineBuilder.

Module Builder.
Definition setCoord (b : Builder) (c : string) : M unit :=
  match b with
  | BarBuilder => modify (set_BarBuilder_coord c)
  | LineBuilder => modify (set_LineBuilder_coord c)
  end.
Definition calc (b : Builder) : M unit :=
  match b with
  | BarBuilder =>
      coord ← gets BarBuilder_coord; print ("Bar calc at " +:+ coord +:+ nl)
  | LineBuilder =>
      coord ← gets LineBuilder_coord; print ("Line calc at " +:+ coord +:+ nl)
  end.
Definition draw (b : Builder) : M unit :=
  match b with
  | BarBuilder => DrawGraph.draw
  | LineBuilder => DrawGraph.draw
  end.
Definition drag (b : Builder) : M unit :=
  match b with
  | BarBuilder =>
      coord ← gets BarBuilder_coord; print ("Drag Bar at " +:+ coord +:+ nl)
  | LineBuilder =>
      coord ← gets LineBuilder_coord; print ("Drag Line at " +:+ coord +:+ nl)
  end.
End Builder.

(** A [Director] is a local object whose [builder] pointer starts
    uninitialised ([None]). *)
Record Director : Type := mkDirector { builder : option Builder }.

Module Director.
Definition setBuilder (d : Director) (b : Builder) : Director :=
  mkDirector (Some b).
Definition construct (d : Director) (type coord : string) : M unit :=
  match builder d with
  | None => fail
  | Some b =>
      Builder.setCoord b coord ;;
      Builder.calc b ;;
      Builder.draw b ;;
      Builder.drag b
  end.
End Director.

(** ** Factories *)

Module GraphFactory.
Definition createGraph (type coord : string) : M unit :=
  let d := mkDirector None in
  if String.eqb type "Bar" then
    let d := Director.setBuilder d BarBuilder in
    Director.construct d type coord
  else if String.eqb type "Line" then
    let d := Director.setBuilder d LineBuilder in
    Director.construct d type coord
  else mret tt.
End GraphFactory.

Module FigureFactory.
Definition getFigure (type coord : string) (sub : DrawSubscriber) : M nat :=
  fig ← FlyweightFactory.getFigure type;
  FlyweightFigure.attachSubscriber fig sub ;;
  print ("Coordinates: " +:+ coord +:+ endl) ;;
  FlyweightFigure.draw fig ;;
  mret fig.
End FigureFactory.

(** ** Commands and the two history managers *)

Module CreateGraphCommand.
Definition execute (cmd : CreateGraphCommand) : M unit :=
  GraphFactory.createGraph (cmd_type cmd) (cmd_coord cmd).
Definition undo (cmd : CreateGraphCommand) : M unit :=
  print ("Undo creation of graph: " +:+ cmd_type cmd +:+ nl).
End CreateGraphCommand.

(** [make_shared<CreateGraphCommand>(&graphFactory, type, coord)] *)
Definition make_shared_command (type coord : string) : M CreateGraphCommand :=
  λ w, Some (mkCommand (next_cmd w) type coord, set_next_cmd (S (next_cmd w)) w).

Module Undo.
Definition addCommand (cmd : CreateGraphCommand) : M unit :=
  modify (λ w, set_undoStack (cmd :: undoStack w) w).
(** The result is [None] for [nullptr]. *)
Definition popCommand : M (option CreateGraphCommand) :=
  s ← gets undoStack;
  match s with
  | [] => mret None
  | cmd :: rest => modify (set_undoStack rest) ;; mret (Some cmd)
  end.
End Undo.

Module Redo.
Definition addCommand (cmd : CreateGraphCommand) : M unit :=
  modify (λ w, set_redoStack (cmd :: redoStack w) w).
Definition popCommand : M (option CreateGraphCommand) :=
  s ← gets redoStack;
  match s with
  | [] => mret None
  | cmd :: rest => modify (set_redoStack rest) ;; mret (Some cmd)
  end.
(** [while (!redoStack.empty()) redoStack.pop();] *)
Fixpoint pop_all (s : list CreateGraphCommand) : list CreateGraphCommand :=
  match s with
  | [] => []
  | _ :: rest => pop_all rest
  end.
Definition clear : M unit :=
  modify (λ w, set_redoStack (pop_all (redoStack w)) w).
End Redo.

(** ** The facade *)

Module DiagramFactory.
Definition regSub : DrawSubscriber := RegSub.
Definition contrastSub : DrawSubscriber := ContrastImageSub.

Definition createGraph (type coord : string) : M unit :=
  cmd ← make_shared_command type coord;
  CreateGraphCommand.execute cmd ;;
  Undo.addCommand cmd ;;
  Redo.clear.

Definition createFigure (type coord : string) : M unit :=
  fig ← FigureFactory.getFigure type coord regSub;
  FlyweightFigure.attachSubscriber fig contrastSub.

Definition getDiagram (element type coord : string) : M unit :=
  if String.eqb element "Graph" then createGraph type coord
  else if String.eqb element "Figure" then createFigure type coord
  else mret tt.

Definition undo : M unit :=
  cmd ← Undo.popCommand;
  match cmd with
  | Some c => CreateGraphCommand.undo c ;; Redo.addCommand c
  | None => mret tt
  end.

Definition redo : M unit :=
  cmd ← Redo.popCommand;
  match cmd with
  | Some c => CreateGraphCommand.execute c ;; Undo.addCommand c
  | None => mret tt
  end.
End DiagramFactory.

(** The body of [main]. *)
Definition main : M unit :=
  DiagramFactory.getDiagram "Graph" "Line" "(10,20)" ;;
  DiagramFactory.getDiagram "Graph" "Bar" "(15,30)" ;;
  DiagramFactory.getDiagram "Figure" "CircleColor" "(5,5)" ;;
  DiagramFactory.getDiagram "Figure" "SquareBW" "(2,3)" ;;
  DiagramFactory.undo ;;
  DiagramFactory.redo ;;
  Diagram.accept (IsGraph (mkGraph [])) ;;
  Diagram.accept (IsFigure (mkFigure [])).

(** A client of the facade can make three kinds of call; a session is a
    list of them, run in order. *)
Inductive Call : Type :=
  | GetDiagram (element type coord : string)
  | CallUndo
  | CallRedo.

Definition call (c : Call) : M unit :=
  match c with
  | GetDiagram element type coord => DiagramFactory.getDiagram element type coord
  | CallUndo => DiagramFactory.undo
  | CallRedo => DiagramFactory.redo
  end.

Fixpoint session (cs : list Call) : M unit :=
  match cs with
  | [] => mret tt
  | c :: rest => call c ;; session rest
  end.

(** * Vocabulary of the statements

    Texts, predicates and state functions used to say what the code does.
    Each is tied to the code by a lemma of the next part. *)

(** The text of the three printing steps of a construction. *)
Definition construction_text (style coord : string) : list string :=
  [style +:+ " calc at " +:+ coord +:+ nl;
   "[Graph Proxy] Drawing graphical + textual stub" +:+ nl;
   "Drag " +:+ style +:+ " at " +:+ coord +:+ nl].

(** The state [GraphFactory::createGraph] ends in. *)
Definition constructed (type coord : string) (w : World) : World :=
  if String.eqb type "Bar" then
    set_cout (cout w ++ construction_text "Bar" coord)
             (set_BarBuilder_coord coord w)
  else if String.eqb type "Line" then
    set_cout (cout w ++ construction_text "Line" coord)
             (set_LineBuilder_coord coord w)
  else w.

(** The style name that selects a builder singleton. *)
Definition style_of (b : Builder) : string :=
  match b with BarBuilder => "Bar" | LineBuilder => "Line" end.

Definition set_coord_of (b : Builder) : string → World → World :=
  match b with
  | BarBuilder => set_BarBuilder_coord
  | LineBuilder => set_LineBuilder_coord
  end.

(** The text a subscriber writes for a message. *)
Definition notification (s : DrawSubscriber) (message : string) : string :=
  match s with
  | RegSub => "[Regular Subscriber] " +:+ message +:+ endl
  | ContrastImageSub => "[Contrast Image Subscriber] " +:+ message +:+ endl
  end.

(** [pat] occurs in [s]. *)
Definition occurs_in (pat s : string) : Prop :=
  ∃ pre post, s = pre +:+ pat +:+ post.

(** The test [type.find("Color") != string::npos]. *)
Definition has_Color (type : string) : bool :=
  match find type "Color" with Some _ => true | None => false end.

(** The object [FlyweightFactory::getFigure] creates for an unseen key. *)
Definition new_figure (key : string) : FlyweightFigure :=
  if has_Color key then ColoredFigure key [] else BWFigure key [].

(** The cached object of a key, if there is one. *)
Definition figure_of (key : string) (w : World) : option FlyweightFigure :=
  match pool w !! key with
  | Some p => figures w !! p
  | None => None
  end.

(** The invariant of the cache: every key of [pool] leads to a live object
    that was created for this key and has the variant the key asks for. *)
Definition consistent (w : World) : Prop :=
  ∀ key p, pool w !! key = Some p →
    ∃ f, figures w !! p = Some f
         ∧ FlyweightFigure.type f = key
         ∧ FlyweightFigure.is_colored f = has_Color key.

(** First line and message of a flyweight's [draw]. *)
Definition draw_header (f : FlyweightFigure) : string :=
  match f with
  | ColoredFigure type _ =>
      "[Colored Flyweight] Drawing colored figure of type: " +:+ type +:+ nl
  | BWFigure type _ =>
      "[B/W Flyweight] Drawing black and white figure of type: " +:+ type +:+ nl
  end.
Definition draw_message (f : FlyweightFigure) : string :=
  match f with
  | ColoredFigure _ _ => "Colored Figure drawn"
  | BWFigure _ _ => "B/W Figure drawn"
  end.

(** What one call of the facade may do to a cached figure: the handle of
    its key stays, the object keeps its key and variant, and its subscriber
    vector is only ever extended at the end. *)
Definition extends (w w' : World) : Prop :=
  (∀ k q, pool w !! k = Some q → pool w' !! k = Some q)
  ∧ (∀ k f, figure_of k w = Some f →
       ∃ f', figure_of k w' = Some f'
             ∧ FlyweightFigure.type f' = FlyweightFigure.type f
             ∧ FlyweightFigure.is_colored f' = FlyweightFigure.is_colored f
             ∧ FlyweightFigure.subscribers f
               `prefix_of` FlyweightFigure.subscribers f').

(** The acknowledgment [CreateGraphCommand::undo] writes. *)
Definition acknowledgment (cmd : CreateGraphCommand) : string :=
  "Undo creation of graph: " +:+ cmd_type cmd +:+ nl.

(** The text a graph request writes: the construction text for the two
    recognised styles, nothing otherwise. *)
Definition graph_text (type coord : string) : list string :=
  if String.eqb type "Bar" then construction_text "Bar" coord
  else if String.eqb type "Line" then construction_text "Line" coord
  else [].

(** The [coord] field of a builder singleton. *)
Definition coord_of (b : Builder) (w : World) : string :=
  match b with
  | BarBuilder => BarBuilder_coord w
  | LineBuilder => LineBuilder_coord w
  end.

(** The history as one line of commands, oldest first: the executed ones
    (bottom of the undo stack first), then the undone ones (top of the redo
    stack first). *)
Definition timeline (w : World) : list CreateGraphCommand :=
  reverse (undoStack w) ++ redoStack w.

(** Every command on the two stacks is a different object, allocated
    before [next_cmd]. *)
Definition distinct_commands (w : World) : Prop :=
  NoDup (cmd_id <$> undoStack w ++ redoStack w)
  ∧ Forall (λ c, cmd_id c < next_cmd w) (undoStack w ++ redoStack w).

(** Everything but the figure cache and [cout]. *)
Definition same_graph_side (w w' : World) : Prop :=
  undoStack w' = undoStack w ∧ redoStack w' = redoStack w
  ∧ next_cmd w' = next_cmd w
  ∧ BarBuilder_coord w' = BarBuilder_coord w
  ∧ LineBuilder_coord w' = LineBuilder_coord w.

(** Every allocated flyweight is the cached object of its own [type]. *)
Definition owned (w : World) : Prop :=
  ∀ p f, figures w !! p = Some f → pool w !! FlyweightFigure.type f = Some p.

(** Whether a call is a figure request for [key], and how many of a
    session's calls are. *)
Definition is_figure_request (key : string) (c : Call) : bool :=
  match c with
  | GetDiagram element type _ =>
      String.eqb element "Figure" && String.eqb type key
  | _ => false
  end.
Definition figure_requests (key : string) (cs : list Call) : nat :=
  length (filter (λ c, is_figure_request key c = true) cs).

(** The subscribers of the cached figure of a key; none when the key is
    not cached. *)
Definition subscribers_of (key : string) (w : World) : list DrawSubscriber :=
  match figure_of key w with
  | Some f => FlyweightFigure.subscribers f
  | None => []
  end.

(** Attaching the subscribers of a list, one after the other, through a
    flyweight handle. *)
Fixpoint attach_each (fig : nat) (subs : list DrawSubscriber) : M unit :=
  match subs with
  | [] => mret tt
  | sub :: rest =>
      FlyweightFigure.attachSubscriber fig sub ;; attach_each fig rest
  end.

(** Whether a call is a graph request, and how many of a session's calls
    are. *)
Definition is_graph_request (c : Call) : bool :=
  match c with
  | GetDiagram element _ _ => String.eqb element "Graph"
  | _ => false
  end.
Definition graph_requests (cs : list Call) : nat :=
  length (filter (λ c, is_graph_request c = true) cs).

(** The line the export visitor writes for a diagram. *)
Definition export_line (d : Diagram) : string :=
  match d with
  | IsGraph _ => "Exporting Graph as PNG..." +:+ nl
  | IsFigure _ => "Exporting Figure as JPG..." +:+ nl
  end.

(** * Properties *)

(** ** Running statements *)

Lemma bind_run {A B : Type} (m : M A) (f : A → M B) (w : World) :
  (m ≫= f) w = match m w with Some (a, w') => f a w' | None => None end.
Proof. reflexivity. Qed.

(** Unfold the plumbing of the monad and compute the state. *)
Ltac run_M :=
  repeat progress
    (cbn; cbv [mbind M_bind mret M_ret modify gets print fail DrawGraph.draw]).

Lemma pop_all_nil (s : list CreateGraphCommand) : Redo.pop_all s = [].
Proof. induction s as [|c s IH]; [reflexivity | exact IH]. Qed.

(** ** Graph construction *)

Lemma GraphFactory_createGraph_cases (type coord : string) (w : World) :
  (type = "Bar" ∧
   GraphFactory.createGraph type coord w
   = Some (tt, set_cout (cout w ++ construction_text "Bar" coord)
                        (set_BarBuilder_coord coord w)))
  ∨ (type = "Line" ∧
     GraphFactory.createGraph type coord w
     = Some (tt, set_cout (cout w ++ construction_text "Line" coord)
                          (set_LineBuilder_coord coord w)))
  ∨ (type ≠ "Bar" ∧ type ≠ "Line" ∧
     GraphFactory.createGraph type coord w = Some (tt, w)).
Proof.
  unfold GraphFactory.createGraph.
  destruct (String.eqb_spec type "Bar") as [->|HB].
  - left. split; [reflexivity|].
    destruct w; run_M. rewrite <- !app_assoc. reflexivity.
  - destruct (String.eqb_spec type "Line") as [->|HL].
    + right; left. split; [reflexivity|].
      destruct w; run_M. rewrite <- !app_assoc. reflexivity.
    + right; right. auto.
Qed.

Lemma GraphFactory_createGraph_run (type coord : string) (w : World) :
  GraphFactory.createGraph type coord w = Some (tt, constructed type coord w).
Proof.
  unfold constructed.
  destruct (GraphFactory_createGraph_cases type coord w)
    as [[-> ->]|[[-> ->]|(HB & HL & ->)]]; try reflexivity.
  apply String.eqb_neq in HB, HL. rewrite HB, HL. reflexivity.
Qed.

Lemma constructed_unknown (type coord : string) (w : World) :
  type ≠ "Bar" → type ≠ "Line" → constructed type coord w = w.
Proof.
  intros HB HL. unfold constructed.
  apply String.eqb_neq in HB, HL. rewrite HB, HL. reflexivity.
Qed.

(** ** The history managers *)

Lemma DiagramFactory_createGraph_run (type coord : string) (w : World) :
  ∃ w', DiagramFactory.createGraph type coord w = Some (tt, w')
        ∧ undoStack w' = mkCommand (next_cmd w) type coord :: undoStack w
        ∧ redoStack w' = []
        ∧ next_cmd w' = S (next_cmd w)
        ∧ cout w' = cout (constructed type coord w)
        ∧ BarBuilder_coord w' = BarBuilder_coord (constructed type coord w)
        ∧ LineBuilder_coord w' = LineBuilder_coord (constructed type coord w)
        ∧ figures w' = figures w ∧ pool w' = pool w.
Proof.
  unfold DiagramFactory.createGraph, make_shared_command,
    CreateGraphCommand.execute, Undo.addCommand, Redo.clear.
  rewrite bind_run. cbn [cmd_type cmd_coord].
  rewrite bind_run, GraphFactory_createGraph_run.
  eexists; split; [reflexivity|].
  unfold constructed.
  destruct (String.eqb type "Bar"); [|destruct (String.eqb type "Line")];
    destruct w; cbn; rewrite ?pop_all_nil; auto 10.
Qed.

Lemma getDiagram_Graph (type coord : string) :
  DiagramFactory.getDiagram "Graph" type coord
  = DiagramFactory.createGraph type coord.
Proof. reflexivity. Qed.

Lemma DiagramFactory_undo_run (w : World) :
  ∃ w', DiagramFactory.undo w = Some (tt, w')
        ∧ match undoStack w with
          | [] => w' = w
          | c :: rest =>
              undoStack w' = rest
              ∧ redoStack w' = c :: redoStack w
              ∧ cout w' = cout w ++ ["Undo creation of graph: "
                                     +:+ cmd_type c +:+ nl]
              ∧ BarBuilder_coord w' = BarBuilder_coord w
              ∧ LineBuilder_coord w' = LineBuilder_coord w
              ∧ next_cmd w' = next_cmd w
              ∧ figures w' = figures w ∧ pool w' = pool w
          end.
Proof.
  unfold DiagramFactory.undo, Undo.popCommand, Redo.addCommand,
    CreateGraphCommand.undo.
  destruct w as [o b l f p n us rs]; destruct us as [|c rest]; run_M;
    eexists; (split; [reflexivity|]); cbn; auto 10.
Qed.

Lemma DiagramFactory_redo_run (w : World) :
  ∃ w', DiagramFactory.redo w = Some (tt, w')
        ∧ match redoStack w with
          | [] => w' = w
          | c :: rest =>
              undoStack w' = c :: undoStack w
              ∧ redoStack w' = rest
              ∧ cout w' = cout (constructed (cmd_type c) (cmd_coord c) w)
              ∧ BarBuilder_coord w'
                = BarBuilder_coord (constructed (cmd_type c) (cmd_coord c) w)
              ∧ LineBuilder_coord w'
                = LineBuilder_coord (constructed (cmd_type c) (cmd_coord c) w)
              ∧ next_cmd w' = next_cmd w
              ∧ figures w' = figures w ∧ pool w' = pool w
          end.
Proof.
  unfold DiagramFactory.redo, Redo.popCommand, Undo.addCommand,
    CreateGraphCommand.execute.
  destruct w as [o b l f p n us rs]; destruct rs as [|c rest].
  - eexists; split; reflexivity.
  - cbv [mbind M_bind mret M_ret modify gets]. cbn [redoStack set_redoStack].
    rewrite GraphFactory_createGraph_run.
    eexists; split; [reflexivity|].
    unfold constructed.
    destruct (String.eqb (cmd_type c) "Bar");
      [|destruct (String.eqb (cmd_type c) "Line")]; cbn; auto 10.
Qed.

Lemma session_cons (c : Call) (cs : list Call) (w w1 : World) :
  call c w = Some (tt, w1) → session (c :: cs) w = session cs w1.
Proof. intros H. simpl. rewrite bind_run, H. reflexivity. Qed.

Lemma redo_empty (w : World) :
  redoStack w = [] → DiagramFactory.redo w = Some (tt, w).
Proof.
  intros H. destruct (DiagramFactory_redo_run w) as (w' & E & Hw').
  rewrite H in Hw'. congruence.
Qed.

Lemma undo_empty (w : World) :
  undoStack w = [] → DiagramFactory.undo w = Some (tt, w).
Proof.
  intros H. destruct (DiagramFactory_undo_run w) as (w' & E & Hw').
  rewrite H in Hw'. congruence.
Qed.

(** C1.  Creating a graph through the facade always leaves the redo stack
    empty, whatever the history was.  In particular after execute A,
    execute B, undo, execute C the redo stack is empty and a following
    [redo()] changes nothing at all: B is not executed again. *)
Theorem C1_execute_clears_redo :
  ∀ (w : World) (styleA coordA styleB coordB styleC coordC : string),
    (∃ w', DiagramFactory.getDiagram "Graph" styleC coordC w = Some (tt, w')
           ∧ redoStack w' = [])
    ∧ (∃ w4, session [GetDiagram "Graph" styleA coordA;
                      GetDiagram "Graph" styleB coordB;
                      CallUndo;
                      GetDiagram "Graph" styleC coordC] w = Some (tt, w4)
             ∧ redoStack w4 = []
             ∧ DiagramFactory.redo w4 = Some (tt, w4)).
Proof.
  intros w sA cA sB cB sC cC. split.
  - destruct (DiagramFactory_createGraph_run sC cC w) as (w' & E & _ & R & _).
    exists w'. rewrite getDiagram_Graph. auto.
  - destruct (DiagramFactory_createGraph_run sA cA w) as (w1 & E1 & _).
    destruct (DiagramFactory_createGraph_run sB cB w1) as (w2 & E2 & _).
    destruct (DiagramFactory_undo_run w2) as (w3 & E3 & _).
    destruct (DiagramFactory_createGraph_run sC cC w3) as (w4 & E4 & _ & R & _).
    exists w4. split; [|split; [exact R | exact (redo_empty w4 R)]].
    rewrite (session_cons _ _ w w1) by exact E1.
    rewrite (session_cons _ _ w1 w2) by exact E2.
    rewrite (session_cons _ _ w2 w3) by exact E3.
    rewrite (session_cons _ _ w3 w4) by exact E4.
    reflexivity.
Qed.

(** C3.  After a graph command A has been executed, [undo()] followed by
    [redo()] gives back the undo stack as it was right after the execute:
    the same sequence of commands, hence the same size and the same command
    object (the one allocated by that execute) on top. *)
Theorem C3_undo_redo_roundtrip :
  ∀ (w : World) (type coord : string),
    ∃ w1 w2 w3,
      DiagramFactory.getDiagram "Graph" type coord w = Some (tt, w1)
      ∧ DiagramFactory.undo w1 = Some (tt, w2)
      ∧ DiagramFactory.redo w2 = Some (tt, w3)
      ∧ undoStack w3 = undoStack w1
      ∧ length (undoStack w3) = length (undoStack w1)
      ∧ head (undoStack w3) = head (undoStack w1)
      ∧ head (undoStack w1) = Some (mkCommand (next_cmd w) type coord).
Proof.
  intros w type coord.
  destruct (DiagramFactory_createGraph_run type coord w)
    as (w1 & E1 & U1 & R1 & _).
  destruct (DiagramFactory_undo_run w1) as (w2 & E2 & H2).
  rewrite U1 in H2. destruct H2 as (U2 & R2 & _).
  destruct (DiagramFactory_redo_run w2) as (w3 & E3 & H3).
  rewrite R2 in H3. destruct H3 as (U3 & R3 & _).
  exists w1, w2, w3. rewrite getDiagram_Graph.
  assert (undoStack w3 = undoStack w1) as Heq by congruence.
  rewrite Heq, U1. auto 10.
Qed.

(** C4, counterexample.  After two executes, two undos and one [redo()]
    the redo stack is not empty: it still holds the command that was
    executed last. *)
Lemma C4_redo_keeps_rest_of_redoStack :
  ∃ w, session [GetDiagram "Graph" "Line" "(10,20)";
                GetDiagram "Graph" "Bar" "(15,30)";
                CallUndo; CallUndo; CallRedo] initial = Some (tt, w)
       ∧ redoStack w = [mkCommand 1 "Bar" "(15,30)"]
       ∧ redoStack w ≠ [].
Proof.
  eexists. split; [vm_compute; reflexivity|]. split; [reflexivity|discriminate].
Qed.

(** C4, amended.  Every execute pushes one command on the undo stack and
    empties the redo stack.  A [redo()] that finds a command on the redo
    stack moves exactly that top command to the undo stack and keeps the
    rest of the redo stack; on an empty redo stack it changes nothing.  An
    [undo()] that finds a command moves the top of the undo stack to the
    redo stack, which is the only way the redo stack grows; on an empty undo
    stack it changes nothing.  So after execute A, execute B, two undos and
    one [redo()], A is back on the undo stack and the redo stack holds
    exactly B. *)
Theorem C4_stack_discipline :
  ∀ (w : World),
    (∀ type coord, ∃ w',
        DiagramFactory.getDiagram "Graph" type coord w = Some (tt, w')
        ∧ undoStack w' = mkCommand (next_cmd w) type coord :: undoStack w
        ∧ length (undoStack w') = S (length (undoStack w))
        ∧ redoStack w' = [])
    ∧ (∃ w', DiagramFactory.redo w = Some (tt, w')
             ∧ match redoStack w with
               | [] => w' = w
               | c :: rest =>
                   undoStack w' = c :: undoStack w
                   ∧ length (undoStack w') = S (length (undoStack w))
                   ∧ redoStack w' = rest
               end)
    ∧ (∃ w', DiagramFactory.undo w = Some (tt, w')
             ∧ match undoStack w with
               | [] => w' = w
               | c :: rest =>
                   undoStack w' = rest
                   ∧ redoStack w' = c :: redoStack w
                   ∧ length (redoStack w') = S (length (redoStack w))
               end)
    ∧ (∀ typeA coordA typeB coordB, ∃ w5,
          session [GetDiagram "Graph" typeA coordA;
                   GetDiagram "Graph" typeB coordB;
                   CallUndo; CallUndo; CallRedo] w = Some (tt, w5)
          ∧ undoStack w5 = mkCommand (next_cmd w) typeA coordA :: undoStack w
          ∧ redoStack w5 = [mkCommand (S (next_cmd w)) typeB coordB]).
Proof.
  intros w. split; [|split; [|split]].
  - intros type coord.
    destruct (DiagramFactory_createGraph_run type coord w)
      as (w' & E & U & R & _).
    exists w'. rewrite getDiagram_Graph, U. auto.
  - destruct (DiagramFactory_redo_run w) as (w' & E & H).
    exists w'. split; [exact E|].
    destruct (redoStack w) as [|c rest]; [exact H|].
    destruct H as (U & R & _). rewrite U. auto.
  - destruct (DiagramFactory_undo_run w) as (w' & E & H).
    exists w'. split; [exact E|].
    destruct (undoStack w) as [|c rest]; [exact H|].
    destruct H as (U & R & _). rewrite R. auto.
  - intros tA cA tB cB.
    destruct (DiagramFactory_createGraph_run tA cA w)
      as (w1 & E1 & U1 & R1 & N1 & _).
    destruct (DiagramFactory_createGraph_run tB cB w1)
      as (w2 & E2 & U2 & R2 & _).
    destruct (DiagramFactory_undo_run w2) as (w3 & E3 & H3).
    rewrite U2, R2 in H3. destruct H3 as (U3 & R3 & _).
    destruct (DiagramFactory_undo_run w3) as (w4 & E4 & H4).
    rewrite U3, U1, R3 in H4. destruct H4 as (U4 & R4 & _).
    destruct (DiagramFactory_redo_run w4) as (w5 & E5 & H5).
    rewrite R4, U4 in H5. destruct H5 as (U5 & R5 & _).
    exists w5.
    rewrite (session_cons _ _ w w1) by exact E1.
    rewrite (session_cons _ _ w1 w2) by exact E2.
    rewrite (session_cons _ _ w2 w3) by exact E3.
    rewrite (session_cons _ _ w3 w4) by exact E4.
    rewrite (session_cons _ _ w4 w5) by exact E5.
    rewrite U5, R5, N1. auto.
Qed.

(** C5.  [undo()] on an empty undo stack and [redo()] on an empty redo
    stack succeed and leave the whole state as it was: both stacks, the
    builders, the cache, and [cout] (nothing is printed). *)
Theorem C5_empty_stack_noop :
  ∀ (w : World),
    (undoStack w = [] → DiagramFactory.undo w = Some (tt, w))
    ∧ (redoStack w = [] → DiagramFactory.redo w = Some (tt, w)).
Proof. intros w. split; [apply undo_empty | apply redo_empty]. Qed.

Lemma C5_empty_stack_noop_fresh :
  undoStack initial = [] ∧ redoStack initial = []
  ∧ DiagramFactory.undo initial = Some (tt, initial)
  ∧ DiagramFactory.redo initial = Some (tt, initial).
Proof.
  destruct (C5_empty_stack_noop initial) as [Hu Hr].
  split; [reflexivity|]. split; [reflexivity|].
  split; [apply Hu; reflexivity | apply Hr; reflexivity].
Defined.

(** C6.  An element name other than "Graph" and "Figure" makes
    [getDiagram] return without changing anything.  For element "Graph", a
    style other than "Bar" and "Line" (compared exactly, so "bar" is not
    "Bar") makes [GraphFactory::createGraph] return without changing
    anything, and the whole facade call then prints nothing, leaves both
    builders and the figure cache alone, and returns normally: its result
    type is [unit], so the caller gets no signal. *)
Theorem C6_unknown_is_silent :
  ∀ (element type coord : string) (w : World),
    (element ≠ "Graph" → element ≠ "Figure" →
     DiagramFactory.getDiagram element type coord w = Some (tt, w))
    ∧ (type ≠ "Bar" → type ≠ "Line" →
       GraphFactory.createGraph type coord w = Some (tt, w)
       ∧ ∃ w', DiagramFactory.getDiagram "Graph" type coord w = Some (tt, w')
               ∧ cout w' = cout w
               ∧ BarBuilder_coord w' = BarBuilder_coord w
               ∧ LineBuilder_coord w' = LineBuilder_coord w
               ∧ figures w' = figures w
               ∧ pool w' = pool w).
Proof.
  intros element type coord w. split.
  - intros HG HF. unfold DiagramFactory.getDiagram.
    apply String.eqb_neq in HG, HF. rewrite HG, HF. reflexivity.
  - intros HB HL. split.
    + rewrite GraphFactory_createGraph_run, constructed_unknown by assumption.
      reflexivity.
    + destruct (DiagramFactory_createGraph_run type coord w)
        as (w' & E & _ & _ & _ & C & B & L & F & P).
      rewrite constructed_unknown in C, B, L by assumption.
      exists w'. rewrite getDiagram_Graph. auto 10.
Qed.

Lemma C6_unknown_is_silent_Pie_bar :
  DiagramFactory.getDiagram "Pie" "Bar" "(1,1)" initial = Some (tt, initial)
  ∧ GraphFactory.createGraph "bar" "(1,1)" initial = Some (tt, initial)
  ∧ ∃ w', DiagramFactory.getDiagram "Graph" "bar" "(1,1)" initial
          = Some (tt, w')
          ∧ cout w' = [] ∧ figures w' = [].
Proof.
  destruct (C6_unknown_is_silent "Pie" "Bar" "(1,1)" initial) as [H1 _].
  destruct (C6_unknown_is_silent "Graph" "bar" "(1,1)" initial) as [_ H2].
  split; [apply H1; discriminate|].
  destruct H2 as (H2 & w' & E & C & _ & _ & F & _); [discriminate..|].
  split; [exact H2|]. exists w'. auto.
Defined.

(** C7.  For each of the two recognised styles, the graph factory runs the
    director on the matching singleton, and the director's run is exactly
    the chain [setCoord coord], [calc], [draw], [drag] on that builder, each
    step starting in the state the previous one ended in and none failing.
    [draw] is the proxy's single output statement.  The net effect is the
    builder's coordinate overwritten by [coord] and three texts appended to
    [cout] in the order calc, draw, drag; nothing else changes. *)
Theorem C7_director_sequence :
  ∀ (b : Builder) (d : Director) (type coord : string) (w : World),
    ∃ w1 w2 w3 w4,
      Builder.setCoord b coord w = Some (tt, w1)
      ∧ Builder.calc b w1 = Some (tt, w2)
      ∧ Builder.draw b w2 = Some (tt, w3)
      ∧ Builder.drag b w3 = Some (tt, w4)
      ∧ Director.construct (Director.setBuilder d b) type coord w
        = Some (tt, w4)
      ∧ GraphFactory.createGraph (style_of b) coord w = Some (tt, w4)
      ∧ Builder.draw b = DrawGraph.draw
      ∧ cout w3
        = cout w2 ++ ["[Graph Proxy] Drawing graphical + textual stub" +:+ nl]
      ∧ w4 = set_cout (cout w ++ construction_text (style_of b) coord)
                      (set_coord_of b coord w).
Proof.
  intros b d type coord w.
  destruct b; do 4 eexists;
    (split; [reflexivity|]); (split; [reflexivity|]);
    (split; [reflexivity|]); (split; [reflexivity|]);
    (split; [reflexivity|]); (split; [reflexivity|]);
    (split; [reflexivity|]); (split; [reflexivity|]);
    destruct w; run_M; unfold set_cout; cbn; rewrite <- !app_assoc;
    reflexivity.
Qed.

(** C9.  A graph request is recorded whatever its style: the facade call
    succeeds, pushes the new command on the undo stack and empties the redo
    stack.  When the style is neither "Bar" nor "Line" nothing was printed
    and no builder was touched, yet the command is there, and the next
    [undo()] pops it, prints the acknowledgment naming that style and moves
    it to the redo stack. *)
Theorem C9_unknown_style_enters_history :
  ∀ (style coord : string) (w : World),
    ∃ w1 w2,
      DiagramFactory.getDiagram "Graph" style coord w = Some (tt, w1)
      ∧ undoStack w1 = mkCommand (next_cmd w) style coord :: undoStack w
      ∧ redoStack w1 = []
      ∧ (style ≠ "Bar" → style ≠ "Line" →
         cout w1 = cout w
         ∧ BarBuilder_coord w1 = BarBuilder_coord w
         ∧ LineBuilder_coord w1 = LineBuilder_coord w)
      ∧ DiagramFactory.undo w1 = Some (tt, w2)
      ∧ undoStack w2 = undoStack w
      ∧ redoStack w2 = [mkCommand (next_cmd w) style coord]
      ∧ cout w2 = cout w1 ++ ["Undo creation of graph: " +:+ style +:+ nl].
Proof.
  intros style coord w.
  destruct (DiagramFactory_createGraph_run style coord w)
    as (w1 & E1 & U1 & R1 & _ & C & B & L & _).
  destruct (DiagramFactory_undo_run w1) as (w2 & E2 & H2).
  rewrite U1, R1 in H2. cbn [cmd_type] in H2.
  destruct H2 as (U2 & R2 & C2 & _).
  exists w1, w2. rewrite getDiagram_Graph.
  split; [exact E1|]. split; [exact U1|]. split; [exact R1|].
  split; [|auto].
  intros HB HL. rewrite constructed_unknown in C, B, L by assumption. auto.
Qed.

Lemma C9_unknown_style_enters_history_Bogus :
  ∃ w1 w2,
    DiagramFactory.getDiagram "Graph" "Bogus" "(0,0)" initial = Some (tt, w1)
    ∧ undoStack w1 = [mkCommand 0 "Bogus" "(0,0)"]
    ∧ cout w1 = []
    ∧ DiagramFactory.undo w1 = Some (tt, w2)
    ∧ undoStack w2 = []
    ∧ cout w2 = ["Undo creation of graph: Bogus" +:+ nl].
Proof.
  destruct (C9_unknown_style_enters_history "Bogus" "(0,0)" initial)
    as (w1 & w2 & E1 & U1 & _ & H & E2 & U2 & _ & C2).
  destruct H as (C1 & _); [discriminate..|].
  exists w1, w2. rewrite C2, C1. auto 10.
Defined.

(** ** Notification *)

Lemma set_cout_id (w : World) : set_cout (cout w) w = w.
Proof. destruct w; reflexivity. Qed.

Lemma set_cout_set_cout (l1 l2 : list string) (w : World) :
  set_cout l2 (set_cout l1 w) = set_cout l2 w.
Proof. reflexivity. Qed.

Lemma notify_run (s : DrawSubscriber) (message : string) (w : World) :
  notify s message w
  = Some (tt, set_cout (cout w ++ [notification s message]) w).
Proof. destruct s; reflexivity. Qed.

Lemma notifySubscribers_run (subs : list DrawSubscriber) (msg : string)
    (w : World) :
  notifySubscribers subs msg w
  = Some (tt, set_cout (cout w ++ map (λ s, notification s msg) subs) w).
Proof.
  revert w. induction subs as [|s subs IH]; intros w.
  - cbn. rewrite app_nil_r, set_cout_id. reflexivity.
  - cbn [notifySubscribers map]. rewrite bind_run, notify_run, IH.
    cbn [cout set_cout]. rewrite set_cout_set_cout, <- app_assoc.
    reflexivity.
Qed.

Lemma print_then_notify (header msg : string) (subs : list DrawSubscriber)
    (w : World) :
  (print header ;; notifySubscribers subs msg) w
  = Some (tt, set_cout (cout w ++ header
                          :: map (λ s, notification s msg) subs) w).
Proof.
  rewrite bind_run. cbv [print modify].
  rewrite notifySubscribers_run. cbn [cout set_cout].
  rewrite set_cout_set_cout, <- app_assoc. reflexivity.
Qed.

Lemma notification_inj (s1 s2 : DrawSubscriber) (m : string) :
  notification s1 m = notification s2 m → s1 = s2.
Proof. destruct s1, s2; cbn; intros H; try reflexivity; discriminate H. Qed.

Lemma attach_all_subscribers (d : Diagram) (subs : list DrawSubscriber) :
  Diagram.subscribers (foldl Diagram.attachSubscriber d subs)
  = Diagram.subscribers d ++ subs.
Proof.
  revert d. induction subs as [|s subs IH]; intros d; cbn [foldl].
  - rewrite app_nil_r. reflexivity.
  - rewrite IH. destruct d; cbn; rewrite <- app_assoc; reflexivity.
Qed.

(** C8.  Take any diagram, graph or figure, and attach the subscribers of
    any list to it one after the other.  Its subscriber vector is then the
    old one followed by that list, and each of [calc], [draw] and [drag]
    writes its own line and then, before it returns, one notification per
    entry of the vector, in the vector's order, all carrying the same
    message.  The notification text tells which subscriber wrote it. *)
Theorem C8_notify_in_attachment_order :
  ∀ (d : Diagram) (subs : list DrawSubscriber),
    let d' := foldl Diagram.attachSubscriber d subs in
    Diagram.subscribers d' = Diagram.subscribers d ++ subs
    ∧ (∃ header msg, ∀ w,
          Diagram.calc d' w
          = Some (tt, set_cout (cout w ++ header
                     :: map (λ s, notification s msg) (Diagram.subscribers d'))
                     w))
    ∧ (∃ header msg, ∀ w,
          Diagram.draw d' w
          = Some (tt, set_cout (cout w ++ header
                     :: map (λ s, notification s msg) (Diagram.subscribers d'))
                     w))
    ∧ (∃ header msg, ∀ w,
          Diagram.drag d' w
          = Some (tt, set_cout (cout w ++ header
                     :: map (λ s, notification s msg) (Diagram.subscribers d'))
                     w))
    ∧ (∀ s1 s2 msg, notification s1 msg = notification s2 msg → s1 = s2).
Proof.
  intros d subs d'. split; [apply attach_all_subscribers|].
  repeat split; try apply notification_inj;
    destruct d' as [g|f]; do 2 eexists; intros w; apply print_then_notify.
Qed.

Example observer_ordering :
  exec (Diagram.draw (foldl Diagram.attachSubscriber (IsFigure (mkFigure []))
                            [ContrastImageSub; RegSub; ContrastImageSub]))
       initial
  = Some (set_cout ["[Figure Stub] Drawing textual stub." +:+ nl;
                    "[Contrast Image Subscriber] Figure drawn" +:+ nl;
                    "[Regular Subscriber] Figure drawn" +:+ nl;
                    "[Contrast Image Subscriber] Figure drawn" +:+ nl]
                   initial).
Proof. reflexivity. Qed.

Example graph_calc_two_subscribers :
  exec (Graph.calc (mkGraph [RegSub; ContrastImageSub])) initial
  = Some (set_cout ["Calculating Graph" +:+ nl;
                    "[Regular Subscriber] Graph calculated" +:+ nl;
                    "[Contrast Image Subscriber] Graph calculated" +:+ nl]
                   initial).
Proof. reflexivity. Qed.

(** ** Substring search *)

Lemma prefix_true_iff (pat s : string) :
  String.prefix pat s = true ↔ ∃ post, s = pat +:+ post.
Proof.
  revert s. induction pat as [|a pat IH]; intros s.
  - split; [intros _; exists s; reflexivity | intros _; destruct s; reflexivity].
  - destruct s as [|b s].
    + split; [discriminate | intros [post H]; discriminate H].
    + change (String.prefix (String a pat) (String b s))
        with (if ascii_dec a b then String.prefix pat s else false).
      destruct (ascii_dec a b) as [->|Hab].
      * rewrite IH. split; intros [post H]; exists post.
        -- rewrite H. reflexivity.
        -- change (String b pat +:+ post) with (String b (pat +:+ post)) in H.
           congruence.
      * split; [discriminate|]. intros [post H].
        change (String a pat +:+ post) with (String a (pat +:+ post)) in H.
        congruence.
Qed.

Lemma index_0_cons (pat : string) (b : ascii) (s : string) :
  index 0 pat (String b s)
  = if String.prefix pat (String b s) then Some 0
    else match index 0 pat s with Some n => Some (S n) | None => None end.
Proof. reflexivity. Qed.

Lemma find_Some_iff (s pat : string) :
  is_Some (find s pat) ↔ occurs_in pat s.
Proof.
  unfold find, occurs_in. split.
  - induction s as [|b s IH].
    + destruct pat; cbn; intros [n H]; [|discriminate H].
      exists EmptyString, EmptyString. reflexivity.
    + rewrite index_0_cons.
      destruct (String.prefix pat (String b s)) eqn:Hp.
      * intros _. apply prefix_true_iff in Hp as [post ->].
        exists EmptyString, post. reflexivity.
      * destruct (index 0 pat s) as [n|]; intros [m H]; [|discriminate H].
        destruct IH as (pre & post & ->); [eauto|].
        exists (String b pre), post. reflexivity.
  - intros (pre & post & ->).
    induction pre as [|a pre IH].
    + change (EmptyString +:+ pat +:+ post) with (pat +:+ post).
      assert (String.prefix pat (pat +:+ post) = true) as Hp
        by (apply prefix_true_iff; eauto).
      destruct (pat +:+ post) as [|b s] eqn:E.
      * destruct pat; [cbn; eauto | discriminate E].
      * rewrite index_0_cons, Hp. eauto.
    + change (String a pre +:+ pat +:+ post)
        with (String a (pre +:+ pat +:+ post)).
      rewrite index_0_cons.
      destruct (String.prefix pat _); [eauto|].
      destruct IH as [n ->]. eauto.
Qed.

Lemma has_Color_true_iff (type : string) :
  has_Color type = true ↔ occurs_in "Color" type.
Proof.
  rewrite <- find_Some_iff. unfold has_Color.
  destruct (find type "Color"); split; eauto; try discriminate.
  intros [? H]; discriminate H.
Qed.

Example has_Color_CircleColor : has_Color "CircleColor" = true.
Proof. reflexivity. Qed.
Example has_Color_SquareBW : has_Color "SquareBW" = false.
Proof. reflexivity. Qed.
Example has_Color_lowercase : has_Color "circlecolor" = false.
Proof. reflexivity. Qed.

(** ** The flyweight cache *)

Section Flyweight.
Implicit Types (w : World) (key coord : string) (p : nat).
Implicit Types (f : FlyweightFigure) (sub : DrawSubscriber).

Lemma consistent_initial : consistent initial.
Proof. intros key p H. cbn in H. rewrite lookup_empty in H. discriminate. Qed.

Lemma new_figure_type key : FlyweightFigure.type (new_figure key) = key.
Proof. unfold new_figure. destruct (has_Color key); reflexivity. Qed.

Lemma new_figure_is_colored key :
  FlyweightFigure.is_colored (new_figure key) = has_Color key.
Proof. unfold new_figure. destruct (has_Color key); reflexivity. Qed.

Lemma new_figure_subscribers key :
  FlyweightFigure.subscribers (new_figure key) = [].
Proof. unfold new_figure. destruct (has_Color key); reflexivity. Qed.

Lemma attach_obj_type f sub :
  FlyweightFigure.type (FlyweightFigure.attach_obj f sub)
  = FlyweightFigure.type f.
Proof. destruct f; reflexivity. Qed.

Lemma attach_obj_is_colored f sub :
  FlyweightFigure.is_colored (FlyweightFigure.attach_obj f sub)
  = FlyweightFigure.is_colored f.
Proof. destruct f; reflexivity. Qed.

Lemma attach_obj_subscribers f sub :
  FlyweightFigure.subscribers (FlyweightFigure.attach_obj f sub)
  = FlyweightFigure.subscribers f ++ [sub].
Proof. destruct f; reflexivity. Qed.

Lemma FlyweightFactory_getFigure_run key w :
  FlyweightFactory.getFigure key w
  = match pool w !! key with
    | Some p => Some (p, w)
    | None =>
        Some (length (figures w),
              set_pool (<[key := length (figures w)]> (pool w))
                       (set_figures (figures w ++ [new_figure key]) w))
    end.
Proof.
  unfold FlyweightFactory.getFigure, FlyweightFactory.pool_at,
    FlyweightFactory.pool_assign, make_shared, new_figure, has_Color.
  cbv [mbind M_bind mret M_ret gets modify].
  destruct (pool w !! key) as [p|] eqn:E.
  - rewrite decide_False by discriminate. rewrite E. reflexivity.
  - rewrite decide_True by reflexivity.
    destruct (find key "Color"); cbn [pool set_pool set_figures figures];
      rewrite lookup_insert_eq; reflexivity.
Qed.

Lemma attachSubscriber_run p sub w f :
  figures w !! p = Some f →
  FlyweightFigure.attachSubscriber p sub w
  = Some (tt, set_figures (<[p := FlyweightFigure.attach_obj f sub]>
                             (figures w)) w).
Proof.
  intros H. unfold FlyweightFigure.attachSubscriber, deref, store.
  cbv [mbind M_bind modify]. rewrite H. reflexivity.
Qed.

Lemma FlyweightFigure_draw_run p w f :
  figures w !! p = Some f →
  FlyweightFigure.draw p w
  = Some (tt, set_cout (cout w ++ draw_header f
                          :: map (λ s, notification s (draw_message f))
                               (FlyweightFigure.subscribers f)) w).
Proof.
  intros H. unfold FlyweightFigure.draw, deref.
  rewrite bind_run, H. destruct f; apply print_then_notify.
Qed.

(** A lookup keeps the invariant and never moves an existing entry. *)
Lemma consistent_getFigure key w p w1 :
  consistent w →
  FlyweightFactory.getFigure key w = Some (p, w1) →
  consistent w1
  ∧ pool w1 !! key = Some p
  ∧ figures w1 !! p = Some (default (new_figure key) (figure_of key w))
  ∧ (∀ k q, pool w !! k = Some q → pool w1 !! k = Some q)
  ∧ (∀ k, k ≠ key → pool w1 !! k = pool w !! k)
  ∧ (∀ q f, figures w !! q = Some f → figures w1 !! q = Some f)
  ∧ cout w1 = cout w ∧ undoStack w1 = undoStack w
  ∧ redoStack w1 = redoStack w.
Proof.
  intros Hc. rewrite FlyweightFactory_getFigure_run. unfold figure_of.
  destruct (pool w !! key) as [q|] eqn:E; intros [= <- <-].
  - destruct (Hc key q E) as (f & Hf & _). rewrite Hf. cbn. auto 10.
  - destruct w as [o b l fs pl n us rs]. unfold consistent in *.
    cbn [pool figures cout undoStack redoStack set_pool set_figures] in *.
    split; [|split; [|split; [|split; [|split; [|split]]]]]; auto.
    + intros k q Hk. destruct (decide (k = key)) as [->|Hne].
      * rewrite lookup_insert_eq in Hk. injection Hk as <-.
        exists (new_figure key).
        rewrite list_lookup_middle by reflexivity.
        auto using new_figure_type, new_figure_is_colored.
      * rewrite lookup_insert_ne in Hk by congruence.
        destruct (Hc k q Hk) as (f & Hf & Ht & Hv).
        exists f. rewrite lookup_app_l by (eapply lookup_lt_Some; eauto).
        auto.
    + apply lookup_insert_eq.
    + apply list_lookup_middle. reflexivity.
    + intros k q Hk. rewrite lookup_insert_ne; [exact Hk|].
      intros ->. congruence.
    + intros k Hk. apply lookup_insert_ne. congruence.
    + intros q f Hf. rewrite lookup_app_l by (eapply lookup_lt_Some; eauto).
      exact Hf.
Qed.

(** Attaching a subscriber to a live object keeps the invariant. *)
Lemma consistent_attach p sub w f :
  consistent w →
  figures w !! p = Some f →
  consistent (set_figures (<[p := FlyweightFigure.attach_obj f sub]>
                             (figures w)) w).
Proof.
  intros Hc Hf key q Hk. destruct w as [o b l fs pl n us rs].
  unfold consistent in Hc.
  cbn [pool figures set_pool set_figures] in *.
  destruct (Hc key q Hk) as (g & Hg & Ht & Hv).
  destruct (decide (q = p)) as [->|Hne].
  - exists (FlyweightFigure.attach_obj f sub).
    rewrite list_lookup_insert_eq by (eapply lookup_lt_Some; eauto).
    rewrite attach_obj_type, attach_obj_is_colored.
    assert (g = f) by congruence. subst g. auto.
  - exists g. rewrite list_lookup_insert_ne by congruence. auto.
Qed.

(** The invariant only speaks of the cache. *)
Lemma consistent_same_cache w w' :
  figures w' = figures w → pool w' = pool w →
  consistent w → consistent w'.
Proof. intros Hf Hp Hc key p. rewrite Hf, Hp. apply Hc. Qed.
End Flyweight.

Lemma print_run (s : string) (w : World) :
  print s w = Some (tt, set_cout (cout w ++ [s]) w).
Proof. reflexivity. Qed.

Lemma mret_run {A : Type} (a : A) (w : World) : (mret a : M A) w = Some (a, w).
Proof. reflexivity. Qed.

Lemma FlyweightFactory_getFigure_total (key : string) (w : World) :
  ∃ p w1, FlyweightFactory.getFigure key w = Some (p, w1).
Proof.
  rewrite FlyweightFactory_getFigure_run. destruct (pool w !! key); eauto.
Qed.

(** One figure request through the facade, on a state that satisfies the
    cache invariant. *)
Lemma DiagramFactory_createFigure_run (key coord : string) (w : World) :
  consistent w →
  let f0 := default (new_figure key) (figure_of key w) in
  let f1 := FlyweightFigure.attach_obj f0 DiagramFactory.regSub in
  let f2 := FlyweightFigure.attach_obj f1 DiagramFactory.contrastSub in
  ∃ p w',
    DiagramFactory.createFigure key coord w = Some (tt, w')
    ∧ consistent w'
    ∧ pool w' !! key = Some p
    ∧ figures w' !! p = Some f2
    ∧ (∀ k q, pool w !! k = Some q → pool w' !! k = Some q)
    ∧ cout w' = cout w ++ ("Coordinates: " +:+ coord +:+ endl)
                  :: draw_header f1
                  :: map (λ s, notification s (draw_message f1))
                       (FlyweightFigure.subscribers f1)
    ∧ undoStack w' = undoStack w ∧ redoStack w' = redoStack w
    ∧ (∀ k, k ≠ key → figure_of k w' = figure_of k w).
Proof.
  intros Hc f0 f1 f2.
  destruct (FlyweightFactory_getFigure_total key w) as (p & w1 & E).
  destruct (consistent_getFigure key w p w1 Hc E)
    as (Hc1 & Hp1 & Hf1 & Hmono & Hother & Hkeep & Hout & Hu & Hr).
  fold f0 in Hf1.
  assert (p < length (figures w1)) as Hlt by (eapply lookup_lt_Some; eauto).
  set (wa := set_figures (<[p := f1]> (figures w1)) w1).
  set (wb := set_cout (cout wa ++ ["Coordinates: " +:+ coord +:+ endl]) wa).
  set (wc := set_cout (cout wb ++ draw_header f1
                         :: map (λ s, notification s (draw_message f1))
                              (FlyweightFigure.subscribers f1)) wb).
  assert (figures wc !! p = Some f1) as Hfc
    by (cbn [wc wb wa figures set_cout set_figures];
        apply list_lookup_insert_eq; exact Hlt).
  exists p, (set_figures (<[p := f2]> (figures wc)) wc).
  split; [|split; [|split; [|split; [|split; [|split; [|split; [|split]]]]]]].
  - unfold DiagramFactory.createFigure, FigureFactory.getFigure.
    rewrite !bind_run, E. cbv beta iota.
    rewrite bind_run, (attachSubscriber_run p _ w1 f0 Hf1). cbv beta iota.
    fold f1 wa. rewrite bind_run, print_run. cbv beta iota. fold wb.
    rewrite bind_run, (FlyweightFigure_draw_run p wb f1 Hfc). cbv beta iota.
    fold wc. rewrite mret_run. cbv beta iota.
    rewrite (attachSubscriber_run p _ wc f1 Hfc). reflexivity.
  - apply consistent_attach; [|exact Hfc].
    apply (consistent_same_cache wa); [reflexivity..|].
    apply consistent_attach; assumption.
  - exact Hp1.
  - cbn [figures set_figures]. apply list_lookup_insert_eq.
    cbn [wc wb wa figures set_cout set_figures].
    rewrite length_insert. exact Hlt.
  - exact Hmono.
  - cbn [wc wb wa cout set_cout set_figures]. rewrite Hout, <- app_assoc.
    reflexivity.
  - exact Hu.
  - exact Hr.
  - intros k Hk. unfold figure_of.
    change (pool (set_figures (<[p:=f2]> (figures wc)) wc)) with (pool w1).
    rewrite (Hother k Hk).
    destruct (pool w !! k) as [q|] eqn:Eq; [|reflexivity].
    destruct (Hc k q Eq) as (g & Hg & Hgt & _).
    destruct (Hc1 k q (Hmono k q Eq)) as (g1 & Hg1 & Hg1t & _).
    destruct (Hc1 key p Hp1) as (h & Hh & Hht & _).
    assert (q ≠ p) as Hne by (intros ->; congruence).
    cbn [wc wb wa figures set_cout set_figures].
    rewrite !list_lookup_insert_ne by congruence.
    rewrite Hg. apply Hkeep. exact Hg.
Qed.

(** ** The cache along a session *)

Lemma figure_of_Some (key : string) (w : World) (p : nat) (f : FlyweightFigure) :
  pool w !! key = Some p → figures w !! p = Some f → figure_of key w = Some f.
Proof. intros Hp Hf. unfold figure_of. rewrite Hp. exact Hf. Qed.

Lemma extends_refl (w : World) : extends w w.
Proof. split; [auto|]. intros k f H. exists f. auto. Qed.

Lemma extends_trans (w1 w2 w3 : World) :
  extends w1 w2 → extends w2 w3 → extends w1 w3.
Proof.
  intros [Hp12 Hf12] [Hp23 Hf23]. split; [auto|].
  intros k f H. destruct (Hf12 k f H) as (f' & H' & Ht & Hv & Hs).
  destruct (Hf23 k f' H') as (f'' & H'' & Ht' & Hv' & Hs').
  exists f''. repeat split; try congruence. etrans; eassumption.
Qed.

Lemma extends_same_cache (w w' : World) :
  figures w' = figures w → pool w' = pool w → extends w w'.
Proof.
  intros Hf Hp. split.
  - intros k q. rewrite Hp. auto.
  - intros k f H. exists f. unfold figure_of in *. rewrite Hp, Hf. auto.
Qed.

Lemma createFigure_extends (key coord : string) (w : World) :
  consistent w →
  ∃ w', DiagramFactory.createFigure key coord w = Some (tt, w')
        ∧ consistent w' ∧ extends w w'.
Proof.
  intros Hc.
  destruct (DiagramFactory_createFigure_run key coord w Hc)
    as (p & w' & E & Hc' & Hp & Hf & Hmono & _ & _ & _ & Hother).
  exists w'. split; [exact E|]. split; [exact Hc'|]. split; [exact Hmono|].
  intros k f Hk. destruct (decide (k = key)) as [->|Hne].
  - rewrite Hk in Hf. cbn [default] in Hf.
    eexists. split; [exact (figure_of_Some key w' p _ Hp Hf)|].
    rewrite !attach_obj_type, !attach_obj_is_colored, !attach_obj_subscribers.
    repeat split. rewrite <- app_assoc. apply prefix_app_r. reflexivity.
  - exists f. rewrite (Hother k Hne). auto.
Qed.

Lemma call_consistent (c : Call) (w : World) :
  consistent w →
  ∃ w', call c w = Some (tt, w') ∧ consistent w' ∧ extends w w'.
Proof.
  intros Hc. destruct c as [element type coord| |]; cbn [call].
  - unfold DiagramFactory.getDiagram.
    destruct (String.eqb element "Graph").
    + destruct (DiagramFactory_createGraph_run type coord w)
        as (w' & E & _ & _ & _ & _ & _ & _ & Hf & Hp).
      exists w'. split; [exact E|].
      split; [exact (consistent_same_cache w w' Hf Hp Hc)|].
      exact (extends_same_cache w w' Hf Hp).
    + destruct (String.eqb element "Figure").
      * apply createFigure_extends, Hc.
      * exists w. auto using extends_refl.
  - destruct (DiagramFactory_undo_run w) as (w' & E & H).
    exists w'. split; [exact E|].
    destruct (undoStack w) as [|cmd rest].
    + subst w'. auto using extends_refl.
    + destruct H as (_ & _ & _ & _ & _ & _ & Hf & Hp).
      split; [exact (consistent_same_cache w w' Hf Hp Hc)|].
      exact (extends_same_cache w w' Hf Hp).
  - destruct (DiagramFactory_redo_run w) as (w' & E & H).
    exists w'. split; [exact E|].
    destruct (redoStack w) as [|cmd rest].
    + subst w'. auto using extends_refl.
    + destruct H as (_ & _ & _ & _ & _ & _ & Hf & Hp).
      split; [exact (consistent_same_cache w w' Hf Hp Hc)|].
      exact (extends_same_cache w w' Hf Hp).
Qed.

(** Every session runs to its end from a state that satisfies the cache
    invariant, keeps the invariant, and only extends the cache. *)
Lemma session_consistent (cs : list Call) (w : World) :
  consistent w →
  ∃ w', session cs w = Some (tt, w') ∧ consistent w' ∧ extends w w'.
Proof.
  revert w. induction cs as [|c cs IH]; intros w Hc.
  - exists w. auto using extends_refl.
  - destruct (call_consistent c w Hc) as (w1 & E1 & Hc1 & Hx1).
    destruct (IH w1 Hc1) as (w' & E' & Hc' & Hx').
    exists w'. rewrite (session_cons c cs w w1 E1).
    eauto using extends_trans.
Qed.

(** All states a client can reach from the start of the program satisfy
    the cache invariant. *)
Lemma reachable_consistent (cs : list Call) (w : World) :
  session cs initial = Some (tt, w) → consistent w.
Proof.
  intros H.
  destruct (session_consistent cs initial consistent_initial)
    as (w' & E & Hc & _).
  rewrite H in E. injection E as <-. exact Hc.
Qed.

Lemma variant_by_key (f : FlyweightFigure) (key : string) :
  FlyweightFigure.type f = key →
  FlyweightFigure.is_colored f = has_Color key →
  (occurs_in "Color" key → ∃ subs, f = ColoredFigure key subs)
  ∧ (¬ occurs_in "Color" key → ∃ subs, f = BWFigure key subs).
Proof.
  intros Ht Hv. rewrite <- has_Color_true_iff, <- Hv.
  destruct f as [t subs|t subs]; cbn in *; subst t; split; intros H;
    try discriminate H; try (exists subs; reflexivity).
  contradiction H. reflexivity.
Qed.

(** C2.  In every state that satisfies the cache invariant (every state a
    client can reach does), [getFigure key] returns a handle to a live
    object made for [key].  For a key seen before it is the stored handle
    and nothing changes; for an unseen key it is a fresh object with no
    subscribers.  Asking again gives the same handle and changes nothing,
    and this stays so after any further calls on the facade.  The object is
    a [ColoredFigure] when "Color" occurs in the key and a [BWFigure]
    otherwise, and it keeps that variant through all later calls. *)
Theorem C2_flyweight_identity :
  ∀ (key : string) (w : World),
    consistent w →
    ∃ p w1 f,
      FlyweightFactory.getFigure key w = Some (p, w1)
      ∧ figures w1 !! p = Some f
      ∧ (∀ q, pool w !! key = Some q → p = q ∧ w1 = w)
      ∧ (pool w !! key = None →
         p = length (figures w) ∧ figures w1 = figures w ++ [f]
         ∧ FlyweightFigure.subscribers f = [])
      ∧ FlyweightFactory.getFigure key w1 = Some (p, w1)
      ∧ (occurs_in "Color" key → ∃ subs, f = ColoredFigure key subs)
      ∧ (¬ occurs_in "Color" key → ∃ subs, f = BWFigure key subs)
      ∧ ∀ cs : list Call, ∃ w2 f2,
          session cs w1 = Some (tt, w2)
          ∧ FlyweightFactory.getFigure key w2 = Some (p, w2)
          ∧ figures w2 !! p = Some f2
          ∧ FlyweightFigure.is_colored f2 = FlyweightFigure.is_colored f.
Proof.
  intros key w Hc.
  destruct (FlyweightFactory_getFigure_total key w) as (p & w1 & E).
  destruct (consistent_getFigure key w p w1 Hc E)
    as (Hc1 & Hp1 & Hf1 & _).
  destruct (Hc1 key p Hp1) as (f & Hf & Ht & Hv).
  exists p, w1, f. split; [exact E|]. split; [exact Hf|].
  split; [|split; [|split; [|split; [|split]]]].
  - intros q Hq. rewrite FlyweightFactory_getFigure_run, Hq in E.
    injection E as <- <-. auto.
  - intros Hnone. rewrite FlyweightFactory_getFigure_run, Hnone in E.
    injection E as <- <-. unfold figure_of in Hf1. rewrite Hnone in Hf1.
    cbn [default] in Hf1. assert (f = new_figure key) as -> by congruence.
    auto using new_figure_subscribers.
  - rewrite FlyweightFactory_getFigure_run, Hp1. reflexivity.
  - apply (variant_by_key f key Ht Hv).
  - apply (variant_by_key f key Ht Hv).
  - intros cs.
    destruct (session_consistent cs w1 Hc1) as (w2 & E2 & Hc2 & Hpool & Hfig).
    destruct (Hfig key f (figure_of_Some key w1 p f Hp1 Hf))
      as (f2 & Hf2 & _ & Hv2 & _).
    pose proof (Hpool key p Hp1) as Hp2.
    unfold figure_of in Hf2. rewrite Hp2 in Hf2.
    exists w2, f2. rewrite FlyweightFactory_getFigure_run, Hp2. auto.
Qed.

Lemma C2_flyweight_identity_CircleColor :
  ∃ p w1 subs,
    FlyweightFactory.getFigure "CircleColor" initial = Some (p, w1)
    ∧ figures w1 !! p = Some (ColoredFigure "CircleColor" subs)
    ∧ FlyweightFactory.getFigure "CircleColor" w1 = Some (p, w1).
Proof.
  assert (consistent initial) as Hc.
  { intros key p H. cbn in H. rewrite lookup_empty in H. discriminate H. }
  destruct (C2_flyweight_identity "CircleColor" initial Hc)
    as (p & w1 & f & E & Hf & _ & _ & E' & Hcol & _).
  destruct Hcol as [subs ->]; [exists "Circle", EmptyString; reflexivity|].
  exists p, w1, subs. auto.
Defined.

(** A figure request repeated for one key. *)
Lemma repeated_requests (key : string) (coords : list string) (w : World) :
  consistent w →
  ∃ w', session (map (GetDiagram "Figure" key) coords) w = Some (tt, w')
        ∧ consistent w'
        ∧ FlyweightFigure.subscribers
            (default (new_figure key) (figure_of key w'))
          = FlyweightFigure.subscribers
              (default (new_figure key) (figure_of key w))
            ++ concat (replicate (length coords)
                         [DiagramFactory.regSub; DiagramFactory.contrastSub])
        ∧ (coords ≠ [] → is_Some (pool w' !! key))
        ∧ (∀ q, pool w !! key = Some q → pool w' !! key = Some q).
Proof.
  revert w. induction coords as [|coord coords IH]; intros w Hc.
  - exists w. split; [reflexivity|]. split; [exact Hc|].
    split; [cbn [length replicate concat]; rewrite app_nil_r; reflexivity|].
    split; [intros H; contradiction H; reflexivity | auto].
  - destruct (DiagramFactory_createFigure_run key coord w Hc)
      as (p & w1 & E1 & Hc1 & Hp1 & Hf1 & Hmono & _).
    destruct (IH w1 Hc1) as (w' & E' & Hc' & Hs & _ & Hstay).
    exists w'. cbn [map]. rewrite (session_cons _ _ w w1) by exact E1.
    split; [exact E'|]. split; [exact Hc'|].
    split; [|split].
    + rewrite Hs, (figure_of_Some key w1 p _ Hp1 Hf1).
      cbn [from_option id].
      rewrite !attach_obj_subscribers. cbn [length replicate concat].
      rewrite <- !app_assoc. reflexivity.
    + intros _. rewrite (Hstay p Hp1). eauto.
    + intros q Hq. apply Hstay, Hmono, Hq.
Qed.

Lemma draw_header_attach (f : FlyweightFigure) (sub : DrawSubscriber) :
  draw_header (FlyweightFigure.attach_obj f sub) = draw_header f.
Proof. destruct f; reflexivity. Qed.

Lemma draw_message_attach (f : FlyweightFigure) (sub : DrawSubscriber) :
  draw_message (FlyweightFigure.attach_obj f sub) = draw_message f.
Proof. destruct f; reflexivity. Qed.

Lemma draw_text_by_variant (f g : FlyweightFigure) :
  FlyweightFigure.type f = FlyweightFigure.type g →
  FlyweightFigure.is_colored f = FlyweightFigure.is_colored g →
  draw_header f = draw_header g ∧ draw_message f = draw_message g.
Proof.
  destruct f, g; cbn; intros -> H; try discriminate H; auto.
Qed.

Lemma length_concat_pairs {A : Type} (a b : A) (n : nat) :
  length (concat (replicate n [a; b])) = 2 * n.
Proof. induction n as [|n IH]; cbn [replicate concat app length]; lia. Qed.

(** C10.  On a state that satisfies the cache invariant, one figure
    request for [key] ends with the key's cached object carrying the
    subscribers it had before (none, if the key was unseen) followed by the
    regular and the contrast subscriber; the handle of a seen key is not
    replaced, no other key's object changes, and the [draw] inside the
    request notifies the old subscribers and the regular one only.  Hence,
    for a key unseen so far, [n > 0] requests leave one object with [2n]
    subscribers (regular, contrast, regular, contrast, ...), a [draw] on it
    then writes [2n] notifications, and the first request's [draw] writes
    exactly one. *)
Theorem C10_two_subscribers_per_request :
  ∀ (key : string) (w : World),
    consistent w →
    (∀ coord, ∃ p f w',
        DiagramFactory.getDiagram "Figure" key coord w = Some (tt, w')
        ∧ consistent w'
        ∧ pool w' !! key = Some p
        ∧ figures w' !! p = Some f
        ∧ (∀ q, pool w !! key = Some q → q = p)
        ∧ FlyweightFigure.subscribers f
          = FlyweightFigure.subscribers
              (default (new_figure key) (figure_of key w))
            ++ [RegSub; ContrastImageSub]
        ∧ (∀ k, k ≠ key → figure_of k w' = figure_of k w)
        ∧ cout w'
          = cout w ++ ("Coordinates: " +:+ coord +:+ endl)
              :: draw_header f
              :: map (λ s, notification s (draw_message f))
                   (FlyweightFigure.subscribers
                      (default (new_figure key) (figure_of key w))
                    ++ [RegSub]))
    ∧ (pool w !! key = None → ∀ coords, coords ≠ [] →
       ∃ p f w' notes,
         session (map (GetDiagram "Figure" key) coords) w = Some (tt, w')
         ∧ pool w' !! key = Some p
         ∧ figures w' !! p = Some f
         ∧ FlyweightFigure.subscribers f
           = concat (replicate (length coords) [RegSub; ContrastImageSub])
         ∧ length (FlyweightFigure.subscribers f) = 2 * length coords
         ∧ FlyweightFigure.draw p w'
           = Some (tt, set_cout (cout w' ++ draw_header f :: notes) w')
         ∧ notes = map (λ s, notification s (draw_message f))
                       (FlyweightFigure.subscribers f)
         ∧ length notes = 2 * length coords)
    ∧ (pool w !! key = None → ∀ coord, ∃ w1,
         DiagramFactory.getDiagram "Figure" key coord w = Some (tt, w1)
         ∧ cout w1
           = cout w ++ ["Coordinates: " +:+ coord +:+ endl;
                        draw_header (new_figure key);
                        notification RegSub (draw_message (new_figure key))]).
Proof.
  intros key w Hc.
  assert (∀ coord, ∃ p f w',
    DiagramFactory.getDiagram "Figure" key coord w = Some (tt, w')
    ∧ consistent w'
    ∧ pool w' !! key = Some p
    ∧ figures w' !! p = Some f
    ∧ (∀ q, pool w !! key = Some q → q = p)
    ∧ FlyweightFigure.subscribers f
      = FlyweightFigure.subscribers
          (default (new_figure key) (figure_of key w))
        ++ [RegSub; ContrastImageSub]
    ∧ (∀ k, k ≠ key → figure_of k w' = figure_of k w)
    ∧ cout w'
      = cout w ++ ("Coordinates: " +:+ coord +:+ endl)
          :: draw_header f
          :: map (λ s, notification s (draw_message f))
               (FlyweightFigure.subscribers
                  (default (new_figure key) (figure_of key w))
                ++ [RegSub])) as Hone.
  { intros coord.
    destruct (DiagramFactory_createFigure_run key coord w Hc)
      as (p & w' & E & Hc' & Hp & Hf & Hmono & Hout & _ & _ & Hother).
    eexists p, _, w'. split; [exact E|]. split; [exact Hc'|].
    split; [exact Hp|]. split; [exact Hf|].
    split; [|split; [|split; [exact Hother|]]].
    - intros q Hq. apply Hmono in Hq. congruence.
    - rewrite !attach_obj_subscribers, <- app_assoc. reflexivity.
    - rewrite Hout, !draw_header_attach, !draw_message_attach,
        attach_obj_subscribers.
      reflexivity. }
  split; [exact Hone|]. split.
  - intros Hnone coords Hne.
    destruct (repeated_requests key coords w Hc)
      as (w' & E & Hc' & Hs & Hsome & _).
    destruct (Hsome Hne) as [p Hp].
    destruct (Hc' key p Hp) as (f & Hf & _).
    rewrite (figure_of_Some key w' p f Hp Hf) in Hs.
    unfold figure_of in Hs. rewrite Hnone in Hs. cbn [from_option id] in Hs.
    rewrite new_figure_subscribers in Hs. cbn [app] in Hs.
    exists p, f, w', (map (λ s, notification s (draw_message f))
                        (FlyweightFigure.subscribers f)).
    split; [exact E|]. split; [exact Hp|]. split; [exact Hf|].
    split; [exact Hs|].
    split; [rewrite Hs; apply length_concat_pairs|].
    split; [exact (FlyweightFigure_draw_run p w' f Hf)|].
    split; [reflexivity|].
    rewrite length_map, Hs. apply length_concat_pairs.
  - intros Hnone coord.
    destruct (Hone coord) as (p & f & w1 & E & Hc1 & Hp & Hf & _ & _ & _ & Hout).
    exists w1. split; [exact E|]. rewrite Hout.
    destruct (Hc1 key p Hp) as (g & Hg & Ht & Hv).
    assert (g = f) as -> by congruence.
    unfold figure_of. rewrite Hnone. cbn [from_option id].
    rewrite new_figure_subscribers. cbn [app map].
    destruct (draw_text_by_variant f (new_figure key)) as [-> ->];
      rewrite ?new_figure_type, ?new_figure_is_colored; auto.
Qed.

Lemma C10_two_subscribers_per_request_CircleColor :
  ∃ p f w',
    session (map (GetDiagram "Figure" "CircleColor") ["(5,5)"; "(6,6)"])
            initial = Some (tt, w')
    ∧ pool w' !! "CircleColor" = Some p
    ∧ figures w' !! p = Some f
    ∧ FlyweightFigure.subscribers f
      = [RegSub; ContrastImageSub; RegSub; ContrastImageSub].
Proof.
  assert (consistent initial) as Hc.
  { intros key p H. cbn in H. rewrite lookup_empty in H. discriminate H. }
  destruct (C10_two_subscribers_per_request "CircleColor" initial Hc)
    as (_ & Hn & _).
  destruct (Hn eq_refl ["(5,5)"; "(6,6)"])
    as (p & f & w' & notes & E & Hp & Hf & Hs & _); [discriminate|].
  exists p, f, w'. auto.
Defined.

(** ** The run of [main] *)

Example main_output :
  cout <$> exec main initial
  = Some ["Line calc at (10,20)" +:+ nl;
          "[Graph Proxy] Drawing graphical + textual stub" +:+ nl;
          "Drag Line at (10,20)" +:+ nl;
          "Bar calc at (15,30)" +:+ nl;
          "[Graph Proxy] Drawing graphical + textual stub" +:+ nl;
          "Drag Bar at (15,30)" +:+ nl;
          "Coordinates: (5,5)" +:+ nl;
          "[Colored Flyweight] Drawing colored figure of type: CircleColor"
            +:+ nl;
          "[Regular Subscriber] Colored Figure drawn" +:+ nl;
          "Coordinates: (2,3)" +:+ nl;
          "[B/W Flyweight] Drawing black and white figure of type: SquareBW"
            +:+ nl;
          "[Regular Subscriber] B/W Figure drawn" +:+ nl;
          "Undo creation of graph: Bar" +:+ nl;
          "Bar calc at (15,30)" +:+ nl;
          "[Graph Proxy] Drawing graphical + textual stub" +:+ nl;
          "Drag Bar at (15,30)" +:+ nl;
          "Exporting Graph as PNG..." +:+ nl;
          "Exporting Figure as JPG..." +:+ nl].
Proof. vm_compute. reflexivity. Qed.

(** * Further properties of the code *)

(** ** What undo and redo do to the output and the builders *)

Lemma session_app_run (cs1 cs2 : list Call) (w w1 : World) :
  session cs1 w = Some (tt, w1) → session (cs1 ++ cs2) w = session cs2 w1.
Proof.
  revert w. induction cs1 as [|c cs1 IH]; intros w H.
  - injection H as <-. reflexivity.
  - cbn [session app] in *. rewrite bind_run in *.
    destruct (call c w) as [[[] w0]|]; [|discriminate H].
    apply IH, H.
Qed.

Lemma constructed_cout (type coord : string) (w : World) :
  cout (constructed type coord w) = cout w ++ graph_text type coord.
Proof.
  unfold constructed, graph_text.
  destruct (String.eqb type "Bar"); [reflexivity|].
  destruct (String.eqb type "Line"); [reflexivity|].
  rewrite app_nil_r. reflexivity.
Qed.

Lemma graph_text_style_of (b : Builder) (coord : string) :
  graph_text (style_of b) coord = construction_text (style_of b) coord.
Proof. destruct b; reflexivity. Qed.

Lemma coord_of_constructed (b : Builder) (coord : string) (w : World) :
  coord_of b (constructed (style_of b) coord w) = coord.
Proof. destruct b; reflexivity. Qed.

Lemma coord_of_eq (b : Builder) (w w' : World) :
  BarBuilder_coord w' = BarBuilder_coord w →
  LineBuilder_coord w' = LineBuilder_coord w →
  coord_of b w' = coord_of b w.
Proof. intros HB HL. destruct b; assumption. Qed.

(** X1.  [undo()] takes nothing back: in every state it leaves both
    builders, the figure cache and the allocation count as they are, and
    writes the acknowledgment of the popped command and nothing else
    (nothing at all on an empty undo stack).  So after a graph of a
    recognised style has been built and undone, its builder still holds the
    request's coordinate and the construction text is still followed only
    by the acknowledgment. *)
Theorem X1_undo_keeps_what_was_built :
  ∀ (w : World),
    (∃ w', DiagramFactory.undo w = Some (tt, w')
           ∧ BarBuilder_coord w' = BarBuilder_coord w
           ∧ LineBuilder_coord w' = LineBuilder_coord w
           ∧ figures w' = figures w ∧ pool w' = pool w
           ∧ next_cmd w' = next_cmd w
           ∧ cout w' = cout w ++ match undoStack w with
                                 | [] => []
                                 | c :: _ => [acknowledgment c]
                                 end)
    ∧ (∀ (b : Builder) (coord : string), ∃ w1 w2,
          DiagramFactory.getDiagram "Graph" (style_of b) coord w = Some (tt, w1)
          ∧ DiagramFactory.undo w1 = Some (tt, w2)
          ∧ coord_of b w2 = coord
          ∧ cout w2 = cout w ++ construction_text (style_of b) coord
                        ++ ["Undo creation of graph: " +:+ style_of b +:+ nl]).
Proof.
  intros w. split.
  - destruct (DiagramFactory_undo_run w) as (w' & E & H).
    exists w'. split; [exact E|].
    destruct (undoStack w) as [|c rest].
    + subst w'. rewrite app_nil_r. auto 10.
    + destruct H as (_ & _ & C & B & L & N & F & P). auto 10.
  - intros b coord.
    destruct (DiagramFactory_createGraph_run (style_of b) coord w)
      as (w1 & E1 & U1 & _ & _ & C1 & B1 & L1 & _).
    destruct (DiagramFactory_undo_run w1) as (w2 & E2 & H2).
    rewrite U1 in H2. destruct H2 as (_ & _ & C2 & B2 & L2 & _).
    exists w1, w2. rewrite getDiagram_Graph.
    split; [exact E1|]. split; [exact E2|]. split.
    + rewrite (coord_of_eq b w1 w2 B2 L2), (coord_of_eq b _ w1 B1 L1).
      apply coord_of_constructed.
    + rewrite C2, C1, constructed_cout, graph_text_style_of, <- app_assoc.
      reflexivity.
Qed.

(** X2.  [redo()] runs the whole construction again from the command's own
    fields.  After execute, undo, redo of one request the output is the
    request's text, the acknowledgment, and the request's text once more.
    After two requests of the same style with coordinates [c1] then [c2],
    two undos and one redo, the shared builder holds [c1] again and the
    text written last is the construction text for [c1]. *)
Theorem X2_redo_builds_again :
  ∀ (w : World),
    (∀ (type coord : string), ∃ w3,
        session [GetDiagram "Graph" type coord; CallUndo; CallRedo] w
        = Some (tt, w3)
        ∧ cout w3 = cout w ++ graph_text type coord
                      ++ ["Undo creation of graph: " +:+ type +:+ nl]
                      ++ graph_text type coord)
    ∧ (∀ (b : Builder) (c1 c2 : string), ∃ w5,
          session [GetDiagram "Graph" (style_of b) c1;
                   GetDiagram "Graph" (style_of b) c2;
                   CallUndo; CallUndo; CallRedo] w = Some (tt, w5)
          ∧ coord_of b w5 = c1
          ∧ cout w5 = cout w ++ construction_text (style_of b) c1
                        ++ construction_text (style_of b) c2
                        ++ ["Undo creation of graph: " +:+ style_of b +:+ nl;
                            "Undo creation of graph: " +:+ style_of b +:+ nl]
                        ++ construction_text (style_of b) c1).
Proof.
  intros w. split.
  - intros type coord.
    destruct (DiagramFactory_createGraph_run type coord w)
      as (w1 & E1 & U1 & R1 & _ & C1 & _).
    destruct (DiagramFactory_undo_run w1) as (w2 & E2 & H2).
    rewrite U1, R1 in H2. destruct H2 as (_ & R2 & C2 & _).
    destruct (DiagramFactory_redo_run w2) as (w3 & E3 & H3).
    rewrite R2 in H3. destruct H3 as (_ & _ & C3 & _).
    exists w3.
    rewrite (session_cons _ _ w w1) by exact E1.
    rewrite (session_cons _ _ w1 w2) by exact E2.
    rewrite (session_cons _ _ w2 w3) by exact E3.
    split; [reflexivity|].
    rewrite C3, constructed_cout, C2, C1, constructed_cout.
    cbn [cmd_type cmd_coord]. rewrite <- !app_assoc. reflexivity.
  - intros b c1 c2.
    destruct (DiagramFactory_createGraph_run (style_of b) c1 w)
      as (w1 & E1 & U1 & R1 & _ & C1 & _).
    destruct (DiagramFactory_createGraph_run (style_of b) c2 w1)
      as (w2 & E2 & U2 & R2 & _ & C2 & _).
    destruct (DiagramFactory_undo_run w2) as (w3 & E3 & H3).
    rewrite U2, R2 in H3. destruct H3 as (U3 & R3 & C3 & _).
    destruct (DiagramFactory_undo_run w3) as (w4 & E4 & H4).
    rewrite U3, U1, R3 in H4. destruct H4 as (_ & R4 & C4 & _).
    destruct (DiagramFactory_redo_run w4) as (w5 & E5 & H5).
    rewrite R4 in H5. destruct H5 as (_ & _ & C5 & B5 & L5 & _).
    exists w5.
    rewrite (session_cons _ _ w w1) by exact E1.
    rewrite (session_cons _ _ w1 w2) by exact E2.
    rewrite (session_cons _ _ w2 w3) by exact E3.
    rewrite (session_cons _ _ w3 w4) by exact E4.
    rewrite (session_cons _ _ w4 w5) by exact E5.
    split; [reflexivity|]. cbn [cmd_type cmd_coord] in *. split.
    + rewrite (coord_of_eq b _ w5 B5 L5). apply coord_of_constructed.
    + rewrite C5, constructed_cout, C4, C3, C2, constructed_cout, C1,
        constructed_cout, !graph_text_style_of.
      cbn [cmd_type]. rewrite <- !app_assoc. reflexivity.
Qed.

(** ** The history as one line with a cursor *)

(** X3.  The two stacks are one linear history cut at a cursor.  [undo()]
    and [redo()] move the cursor and never change the line of commands or
    its length; a graph request drops everything after the cursor and
    appends the new command. *)
Theorem X3_history_is_one_line :
  ∀ (w : World),
    (∃ w', DiagramFactory.undo w = Some (tt, w') ∧ timeline w' = timeline w)
    ∧ (∃ w', DiagramFactory.redo w = Some (tt, w') ∧ timeline w' = timeline w)
    ∧ (∀ type coord, ∃ w',
          DiagramFactory.getDiagram "Graph" type coord w = Some (tt, w')
          ∧ timeline w'
            = reverse (undoStack w) ++ [mkCommand (next_cmd w) type coord]).
Proof.
  intros w. unfold timeline. split; [|split].
  - destruct (DiagramFactory_undo_run w) as (w' & E & H).
    exists w'. split; [exact E|].
    destruct (undoStack w) as [|c rest] eqn:Eu;
      [subst w'; rewrite Eu; reflexivity|].
    destruct H as (-> & -> & _).
    rewrite reverse_cons, <- app_assoc. reflexivity.
  - destruct (DiagramFactory_redo_run w) as (w' & E & H).
    exists w'. split; [exact E|].
    destruct (redoStack w) as [|c rest] eqn:Er;
      [subst w'; rewrite Er; reflexivity|].
    destruct H as (-> & -> & _).
    rewrite reverse_cons, <- app_assoc. reflexivity.
  - intros type coord.
    destruct (DiagramFactory_createGraph_run type coord w)
      as (w' & E & U & R & _).
    exists w'. rewrite getDiagram_Graph, U, R, reverse_cons, app_nil_r. auto.
Qed.

(** [n] undos in a row. *)
Lemma undo_n (n : nat) (w : World) :
  ∃ w', session (replicate n CallUndo) w = Some (tt, w')
        ∧ undoStack w' = drop n (undoStack w)
        ∧ redoStack w' = reverse (take n (undoStack w)) ++ redoStack w
        ∧ cout w' = cout w ++ (acknowledgment <$> take n (undoStack w))
        ∧ BarBuilder_coord w' = BarBuilder_coord w
        ∧ LineBuilder_coord w' = LineBuilder_coord w
        ∧ next_cmd w' = next_cmd w
        ∧ figures w' = figures w ∧ pool w' = pool w.
Proof.
  revert w. induction n as [|n IH]; intros w.
  - exists w. cbn. rewrite app_nil_r. auto 10.
  - destruct (DiagramFactory_undo_run w) as (w1 & E1 & H1).
    destruct (IH w1) as (w' & E' & U & R & C & B & L & N & F & P).
    exists w'. cbn [replicate].
    rewrite (session_cons CallUndo _ w w1) by exact E1.
    split; [exact E'|].
    destruct (undoStack w) as [|c rest] eqn:Eu.
    + subst w1. rewrite Eu in *. rewrite take_nil, drop_nil in *. auto 10.
    + destruct H1 as (U1 & R1 & C1 & B1 & L1 & N1 & F1 & P1).
      rewrite U1 in *. rewrite R1 in R. rewrite C1 in C.
      cbn [take drop fmap list_fmap].
      rewrite reverse_cons, <- !app_assoc.
      repeat split; try congruence;
        [exact R | rewrite C, <- app_assoc; reflexivity].
Qed.

(** [n] redos in a row. *)
Lemma redo_n (n : nat) (w : World) :
  ∃ w', session (replicate n CallRedo) w = Some (tt, w')
        ∧ redoStack w' = drop n (redoStack w)
        ∧ undoStack w' = reverse (take n (redoStack w)) ++ undoStack w
        ∧ cout w' = cout w ++ concat ((λ c, graph_text (cmd_type c) (cmd_coord c))
                                      <$> take n (redoStack w))
        ∧ next_cmd w' = next_cmd w
        ∧ figures w' = figures w ∧ pool w' = pool w.
Proof.
  revert w. induction n as [|n IH]; intros w.
  - exists w. cbn. rewrite app_nil_r. auto 10.
  - destruct (DiagramFactory_redo_run w) as (w1 & E1 & H1).
    destruct (IH w1) as (w' & E' & R & U & C & N & F & P).
    exists w'. cbn [replicate].
    rewrite (session_cons CallRedo _ w w1) by exact E1.
    split; [exact E'|].
    destruct (redoStack w) as [|c rest] eqn:Er.
    + subst w1. rewrite Er in *. rewrite take_nil, drop_nil in *. auto 10.
    + destruct H1 as (U1 & R1 & C1 & _ & _ & N1 & F1 & P1).
      rewrite R1 in *. rewrite U1 in U. rewrite C1, constructed_cout in C.
      cbn [take drop fmap list_fmap concat].
      rewrite reverse_cons, <- !app_assoc.
      repeat split; try congruence;
        [exact U | rewrite C, <- app_assoc; reflexivity].
Qed.


(** X5.  Redoing several commands at once.  [n] calls of [redo()] pop the
    top [n] commands of the redo stack (all of them, if there are fewer),
    push them on the undo stack in that order, and write, command after
    command, the text of a full graph request for the command's style and
    coordinate; the figure cache is not touched and no command is
    allocated. *)
Theorem X5_redo_many :
  ∀ (n : nat) (w : World),
    ∃ w', session (replicate n CallRedo) w = Some (tt, w')
          ∧ redoStack w' = drop n (redoStack w)
          ∧ undoStack w' = reverse (take n (redoStack w)) ++ undoStack w
          ∧ cout w'
            = cout w ++ concat ((λ c, graph_text (cmd_type c) (cmd_coord c))
                                <$> take n (redoStack w))
          ∧ next_cmd w' = next_cmd w
          ∧ figures w' = figures w ∧ pool w' = pool w.
Proof. intros n w. apply redo_n. Qed.

(** X6.  Round trips of any depth.  When the undo stack holds at least [n]
    commands, [n] undos followed by [n] redos give back both stacks; when
    the redo stack holds at least [n] commands, [n] redos followed by [n]
    undos give back both stacks. *)
Theorem X6_undo_redo_round_trips :
  ∀ (n : nat) (w : World),
    (n ≤ length (undoStack w) →
     ∃ w', session (replicate n CallUndo ++ replicate n CallRedo) w
           = Some (tt, w')
           ∧ undoStack w' = undoStack w ∧ redoStack w' = redoStack w)
    ∧ (n ≤ length (redoStack w) →
       ∃ w', session (replicate n CallRedo ++ replicate n CallUndo) w
             = Some (tt, w')
             ∧ undoStack w' = undoStack w ∧ redoStack w' = redoStack w).
Proof.
  intros n w. split; intros Hn.
  - destruct (undo_n n w) as (w1 & E1 & U1 & R1 & _).
    destruct (redo_n n w1) as (w2 & E2 & R2 & U2 & _).
    exists w2. rewrite (session_app_run _ _ w w1 E1).
    split; [exact E2|].
    assert (length (reverse (take n (undoStack w))) = n) as Hlen
      by (rewrite length_reverse, length_take; lia).
    rewrite R1 in R2, U2.
    rewrite take_app_length' in U2 by (symmetry; exact Hlen).
    rewrite drop_app_length' in R2 by (symmetry; exact Hlen).
    rewrite reverse_involutive, U1, take_drop in U2. auto.
  - destruct (redo_n n w) as (w1 & E1 & R1 & U1 & _).
    destruct (undo_n n w1) as (w2 & E2 & U2 & R2 & _).
    exists w2. rewrite (session_app_run _ _ w w1 E1).
    split; [exact E2|].
    assert (length (reverse (take n (redoStack w))) = n) as Hlen
      by (rewrite length_reverse, length_take; lia).
    rewrite U1 in U2, R2.
    rewrite take_app_length' in R2 by (symmetry; exact Hlen).
    rewrite drop_app_length' in U2 by (symmetry; exact Hlen).
    rewrite reverse_involutive, R1, take_drop in R2. auto.
Qed.

Lemma X6_undo_redo_round_trips_two_deep :
  let w := set_redoStack [mkCommand 2 "Bar" "(1,2)"]
             (set_undoStack [mkCommand 1 "Bar" "(15,30)";
                             mkCommand 0 "Line" "(10,20)"] initial) in
  (∃ w', session (replicate 2 CallUndo ++ replicate 2 CallRedo) w
         = Some (tt, w')
         ∧ undoStack w' = undoStack w ∧ redoStack w' = redoStack w)
  ∧ (∃ w', session (replicate 1 CallRedo ++ replicate 1 CallUndo) w
           = Some (tt, w')
           ∧ undoStack w' = undoStack w ∧ redoStack w' = redoStack w).
Proof.
  intros w. split.
  - apply (X6_undo_redo_round_trips 2 w). cbn. lia.
  - apply (X6_undo_redo_round_trips 1 w). cbn. lia.
Defined.

(** ** Figure requests, step by step *)

(** The whole of [DiagramFactory::createFigure] as one state change: it
    fails exactly when the handle from the cache is dangling. *)
Lemma DiagramFactory_createFigure_unfold (key coord : string) (w : World) :
  DiagramFactory.createFigure key coord w
  = match FlyweightFactory.getFigure key w with
    | Some (p, w1) =>
        match figures w1 !! p with
        | Some f0 =>
            let f1 := FlyweightFigure.attach_obj f0 DiagramFactory.regSub in
            let f2 := FlyweightFigure.attach_obj f1 DiagramFactory.contrastSub in
            Some (tt,
                  set_figures (<[p := f2]> (figures w1))
                    (set_cout (cout w1
                               ++ ("Coordinates: " +:+ coord +:+ endl)
                               :: draw_header f1
                               :: map (λ s, notification s (draw_message f1))
                                    (FlyweightFigure.subscribers f1)) w1))
        | None => None
        end
    | None => None
    end.
Proof.
  unfold DiagramFactory.createFigure, FigureFactory.getFigure.
  rewrite !bind_run.
  destruct (FlyweightFactory.getFigure key w) as [[p w1]|]; [|reflexivity].
  rewrite bind_run.
  destruct (figures w1 !! p) as [f0|] eqn:Hf0.
  - assert (p < length (figures w1)) as Hlt by (eapply lookup_lt_Some; eauto).
    rewrite (attachSubscriber_run p _ w1 f0 Hf0).
    set (f1 := FlyweightFigure.attach_obj f0 DiagramFactory.regSub).
    set (wa := set_figures (<[p := f1]> (figures w1)) w1).
    rewrite bind_run, print_run.
    set (wb := set_cout (cout wa ++ ["Coordinates: " +:+ coord +:+ endl]) wa).
    assert (figures wb !! p = Some f1) as Hfb
      by (cbn [wb wa figures set_cout set_figures];
          apply list_lookup_insert_eq; exact Hlt).
    rewrite bind_run, (FlyweightFigure_draw_run p wb f1 Hfb), mret_run.
    match goal with
    | |- FlyweightFigure.attachSubscriber p _ ?wc = _ =>
        rewrite (attachSubscriber_run p DiagramFactory.contrastSub wc f1)
          by exact Hfb
    end.
    cbn [wb wa figures cout set_cout set_figures].
    rewrite list_insert_insert_eq, <- app_assoc.
    destruct w1; reflexivity.
  - unfold FlyweightFigure.attachSubscriber, deref.
    rewrite bind_run, Hf0. reflexivity.
Qed.

(** A figure request that returns leaves the stacks, the allocation count
    and the builders alone. *)
Lemma createFigure_same_graph_side (key coord : string) (w w' : World) :
  DiagramFactory.createFigure key coord w = Some (tt, w') →
  same_graph_side w w'.
Proof.
  rewrite DiagramFactory_createFigure_unfold, FlyweightFactory_getFigure_run.
  unfold same_graph_side.
  destruct (pool w !! key) as [p|].
  - destruct (figures w !! p); intros [= <-]; destruct w; cbn; auto.
  - destruct (figures _ !! _); intros [= <-]; destruct w; cbn; auto.
Qed.

(** What a figure request does to the cache. *)
Lemma createFigure_cache (key coord : string) (w : World) :
  consistent w →
  ∃ p w', DiagramFactory.createFigure key coord w = Some (tt, w')
          ∧ consistent w'
          ∧ match pool w !! key with
            | Some q =>
                p = q ∧ pool w' = pool w
                ∧ ∃ f0, figures w !! p = Some f0
                        ∧ figures w'
                          = <[p := FlyweightFigure.attach_obj
                                     (FlyweightFigure.attach_obj f0 RegSub)
                                     ContrastImageSub]> (figures w)
            | None =>
                p = length (figures w)
                ∧ pool w' = <[key := p]> (pool w)
                ∧ figures w'
                  = figures w
                    ++ [FlyweightFigure.attach_obj
                          (FlyweightFigure.attach_obj (new_figure key) RegSub)
                          ContrastImageSub]
            end.
Proof.
  intros Hc.
  destruct (DiagramFactory_createFigure_run key coord w Hc)
    as (p0 & w' & E & Hc' & _).
  pose proof E as E0.
  rewrite DiagramFactory_createFigure_unfold, FlyweightFactory_getFigure_run
    in E0.
  destruct (pool w !! key) as [q|] eqn:Hq.
  - destruct (Hc key q Hq) as (f0 & Hf0 & _). rewrite Hf0 in E0.
    injection E0 as <-. exists q. eexists. split; [exact E|].
    split; [exact Hc'|]. split; [reflexivity|]. split; [reflexivity|].
    exists f0. split; [exact Hf0|]. destruct w; reflexivity.
  - cbn [figures set_pool set_figures] in E0.
    rewrite list_lookup_middle in E0 by reflexivity.
    injection E0 as <-. exists (length (figures w)). eexists.
    split; [exact E|]. split; [exact Hc'|]. split; [reflexivity|].
    split; [destruct w; reflexivity|].
    cbn [figures set_pool set_figures set_cout].
    rewrite insert_app_r_alt, Nat.sub_diag by reflexivity.
    destruct w; reflexivity.
Qed.

(** ** Invariants along a session *)

(** A call that returns either was a figure request, or left the figure
    cache alone. *)
Lemma call_cases (c : Call) (w w' : World) :
  call c w = Some (tt, w') →
  (∃ key coord, c = GetDiagram "Figure" key coord
                ∧ DiagramFactory.createFigure key coord w = Some (tt, w'))
  ∨ ((∀ key, is_figure_request key c = false)
     ∧ figures w' = figures w ∧ pool w' = pool w).
Proof.
  destruct c as [element type coord| |]; cbn [call is_figure_request].
  - unfold DiagramFactory.getDiagram.
    destruct (String.eqb_spec element "Graph") as [->|HG].
    + intros H. right.
      destruct (DiagramFactory_createGraph_run type coord w)
        as (w1 & E & _ & _ & _ & _ & _ & _ & F & P).
      rewrite E in H. injection H as <-. auto.
    + destruct (String.eqb_spec element "Figure") as [->|HF].
      * intros H. left. eauto.
      * intros [= <-]. right. auto.
  - intros H. right. destruct (DiagramFactory_undo_run w) as (w1 & E & H1).
    rewrite E in H. injection H as <-. split; [auto|].
    destruct (undoStack w); [subst w1; auto|].
    destruct H1 as (_ & _ & _ & _ & _ & _ & F & P). auto.
  - intros H. right. destruct (DiagramFactory_redo_run w) as (w1 & E & H1).
    rewrite E in H. injection H as <-. split; [auto|].
    destruct (redoStack w); [subst w1; auto|].
    destruct H1 as (_ & _ & _ & _ & _ & _ & F & P). auto.
Qed.

(** Induction over a session: a property kept by every call that returns
    holds at the end of every session, and the session does return. *)
Lemma session_invariant (P : World → Prop) :
  (∀ c w w', consistent w → P w → call c w = Some (tt, w') → P w') →
  ∀ cs w, consistent w → P w →
    ∃ w', session cs w = Some (tt, w') ∧ consistent w' ∧ P w'.
Proof.
  intros Hstep cs. induction cs as [|c cs IH]; intros w Hc HP.
  - exists w. auto.
  - destruct (call_consistent c w Hc) as (w1 & E1 & Hc1 & _).
    destruct (IH w1 Hc1 (Hstep c w w1 Hc HP E1)) as (w' & E' & Hc' & HP').
    exists w'. rewrite (session_cons c cs w w1 E1). auto.
Qed.

Lemma owned_step (c : Call) (w w' : World) :
  consistent w → owned w → call c w = Some (tt, w') → owned w'.
Proof.
  intros Hc Ho H.
  destruct (call_cases c w w' H) as [(key & coord & -> & E)|(_ & F & P)].
  - destruct (createFigure_cache key coord w Hc) as (p & w1 & E1 & _ & Hcache).
    rewrite E1 in E. injection E as ->.
    intros q g Hg. destruct (pool w !! key) as [p0|] eqn:Hp.
    + destruct Hcache as (-> & HP & f0 & Hf0 & HF). rewrite HP. rewrite HF in Hg.
      destruct (decide (q = p0)) as [->|Hne].
      * rewrite list_lookup_insert_eq in Hg by (eapply lookup_lt_Some; eauto).
        injection Hg as <-. rewrite !attach_obj_type. apply Ho, Hf0.
      * rewrite list_lookup_insert_ne in Hg by congruence. apply Ho, Hg.
    + destruct Hcache as (-> & HP & HF). rewrite HP. rewrite HF in Hg.
      apply lookup_snoc_Some in Hg as [[_ Hg]|[-> <-]].
      * pose proof (Ho q g Hg) as Hq.
        rewrite lookup_insert_ne by congruence. exact Hq.
      * rewrite !attach_obj_type, new_figure_type. apply lookup_insert_eq.
  - intros q g. rewrite F, P. apply Ho.
Qed.

Lemma distinct_commands_step (c : Call) (w w' : World) :
  distinct_commands w → call c w = Some (tt, w') → distinct_commands w'.
Proof.
  unfold distinct_commands. intros [Hnd Hlt] H.
  destruct c as [element type coord| |]; cbn [call] in H.
  - unfold DiagramFactory.getDiagram in H.
    destruct (String.eqb element "Graph").
    + destruct (DiagramFactory_createGraph_run type coord w)
        as (w1 & E & U & R & N & _).
      rewrite E in H. injection H as <-. rewrite U, R, N, app_nil_r.
      rewrite fmap_app in Hnd. apply NoDup_app in Hnd as (Hu & _ & _).
      apply Forall_app in Hlt as [Hltu _].
      split.
      * cbn [fmap list_fmap cmd_id]. apply NoDup_cons. split; [|exact Hu].
        intros Hin. apply list_elem_of_fmap in Hin as (c0 & Hid & Hc0).
        rewrite Forall_forall in Hltu. specialize (Hltu c0 Hc0). lia.
      * apply Forall_cons. split; [cbn; lia|].
        eapply Forall_impl; [exact Hltu|]. cbn. intros; lia.
    + destruct (String.eqb element "Figure").
      * destruct (createFigure_same_graph_side type coord w w' H)
          as (-> & -> & -> & _). auto.
      * injection H as <-. auto.
  - destruct (DiagramFactory_undo_run w) as (w1 & E & H1).
    rewrite E in H. injection H as <-.
    destruct (undoStack w) as [|c0 rest] eqn:Eu;
      [subst w1; rewrite Eu; auto|].
    destruct H1 as (-> & -> & _ & _ & _ & -> & _).
    assert (rest ++ c0 :: redoStack w ≡ₚ (c0 :: rest) ++ redoStack w) as ->
      by (symmetry; apply Permutation_middle).
    auto.
  - destruct (DiagramFactory_redo_run w) as (w1 & E & H1).
    rewrite E in H. injection H as <-.
    destruct (redoStack w) as [|c0 rest] eqn:Er;
      [subst w1; rewrite Er; auto|].
    destruct H1 as (-> & -> & _ & _ & _ & -> & _).
    assert ((c0 :: undoStack w) ++ rest ≡ₚ undoStack w ++ c0 :: rest) as ->
      by apply Permutation_middle.
    auto.
Qed.

Lemma distinct_commands_initial : distinct_commands initial.
Proof. split; [apply NoDup_nil_2 | apply Forall_nil_2]. Qed.

Lemma owned_initial : owned initial.
Proof. intros p f H. discriminate H. Qed.

(** X7.  Whatever calls a client makes from the start of the program, the
    session returns, and the commands on the two stacks are pairwise
    different objects, each allocated before [next_cmd]; in particular no
    command is on the undo stack and on the redo stack at once. *)
Theorem X7_commands_are_distinct_objects :
  ∀ (cs : list Call),
    ∃ w, session cs initial = Some (tt, w)
         ∧ NoDup (cmd_id <$> undoStack w ++ redoStack w)
         ∧ Forall (λ c, cmd_id c < next_cmd w) (undoStack w ++ redoStack w)
         ∧ (∀ c, c ∈ undoStack w → c ∉ redoStack w).
Proof.
  intros cs.
  destruct (session_invariant distinct_commands
              (λ c w w' _, distinct_commands_step c w w')
              cs initial consistent_initial distinct_commands_initial)
    as (w & E & _ & Hnd & Hlt).
  exists w. split; [exact E|]. split; [exact Hnd|]. split; [exact Hlt|].
  intros c Hu Hr. rewrite fmap_app in Hnd.
  apply NoDup_app in Hnd as (_ & Hdisj & _).
  apply (Hdisj (cmd_id c)); apply list_elem_of_fmap; eauto.
Qed.

(** X8.  Whatever calls a client makes from the start of the program, no
    call dereferences a null or dangling figure handle: the session returns.
    In the state it ends in, every key of the pool leads to a live flyweight
    whose [type] is that key and whose variant is the one the key asks for,
    and every flyweight ever allocated is the pool's entry for its own
    [type]: one object per key, none orphaned. *)
Theorem X8_cache_is_well_formed :
  ∀ (cs : list Call),
    ∃ w, session cs initial = Some (tt, w)
         ∧ (∀ key p, pool w !! key = Some p →
              ∃ f, figures w !! p = Some f
                   ∧ FlyweightFigure.type f = key
                   ∧ FlyweightFigure.is_colored f = has_Color key)
         ∧ (∀ p f, figures w !! p = Some f →
              pool w !! FlyweightFigure.type f = Some p).
Proof.
  intros cs.
  destruct (session_invariant owned owned_step cs initial
              consistent_initial owned_initial) as (w & E & Hc & Ho).
  exists w. auto.
Qed.

(** X9.  Two different keys never share an instance: on a state that
    satisfies the cache invariant, looking up [key1] and then [key2] gives
    two different handles, and the second lookup does not disturb the first
    key's entry. *)
Theorem X9_distinct_keys_distinct_instances :
  ∀ (key1 key2 : string) (w : World),
    consistent w → key1 ≠ key2 →
    ∃ p1 w1 p2 w2,
      FlyweightFactory.getFigure key1 w = Some (p1, w1)
      ∧ FlyweightFactory.getFigure key2 w1 = Some (p2, w2)
      ∧ p1 ≠ p2
      ∧ FlyweightFactory.getFigure key1 w2 = Some (p1, w2).
Proof.
  intros key1 key2 w Hc Hne.
  destruct (FlyweightFactory_getFigure_total key1 w) as (p1 & w1 & E1).
  destruct (consistent_getFigure key1 w p1 w1 Hc E1) as (Hc1 & Hp1 & _).
  destruct (FlyweightFactory_getFigure_total key2 w1) as (p2 & w2 & E2).
  destruct (consistent_getFigure key2 w1 p2 w2 Hc1 E2)
    as (Hc2 & Hp2 & _ & Hmono & _).
  exists p1, w1, p2, w2. split; [exact E1|]. split; [exact E2|]. split.
  - intros ->.
    destruct (Hc2 key1 p2 (Hmono key1 p2 Hp1)) as (f & Hf & Ht & _).
    destruct (Hc2 key2 p2 Hp2) as (g & Hg & Hgt & _).
    congruence.
  - rewrite FlyweightFactory_getFigure_run, (Hmono key1 p1 Hp1). reflexivity.
Qed.

Lemma X9_distinct_keys_distinct_instances_Circle_Square :
  ∃ p1 w1 p2 w2,
    FlyweightFactory.getFigure "CircleColor" initial = Some (p1, w1)
    ∧ FlyweightFactory.getFigure "SquareColor" w1 = Some (p2, w2)
    ∧ p1 ≠ p2.
Proof.
  assert (consistent initial) as Hc.
  { intros key p H. cbn in H. rewrite lookup_empty in H. discriminate H. }
  destruct (X9_distinct_keys_distinct_instances
              "CircleColor" "SquareColor" initial Hc)
    as (p1 & w1 & p2 & w2 & E1 & E2 & Hne & _); [discriminate|].
  exists p1, w1, p2, w2. auto.
Defined.

(** ** The cache after an arbitrary session *)

Lemma is_figure_request_Figure (key key0 coord : string) :
  is_figure_request key (GetDiagram "Figure" key0 coord) = String.eqb key0 key.
Proof. reflexivity. Qed.

(** One call, seen from one key. *)
Lemma call_figure_count (key : string) (c : Call) (w w' : World) :
  consistent w →
  call c w = Some (tt, w') →
  FlyweightFigure.subscribers (default (new_figure key) (figure_of key w'))
  = FlyweightFigure.subscribers (default (new_figure key) (figure_of key w))
    ++ (if is_figure_request key c then [RegSub; ContrastImageSub] else [])
  ∧ (is_Some (pool w' !! key)
     ↔ is_Some (pool w !! key) ∨ is_figure_request key c = true).
Proof.
  intros Hc H.
  destruct (call_cases c w w' H) as [(key0 & coord & -> & E)|(Hno & F & P)].
  - rewrite is_figure_request_Figure.
    destruct (DiagramFactory_createFigure_run key0 coord w Hc)
      as (p & w1 & E1 & _ & Hp & Hf & Hmono & _ & _ & _ & Hother).
    rewrite E1 in E. injection E as ->.
    destruct (String.eqb_spec key0 key) as [->|Hne].
    + rewrite (figure_of_Some key w' p _ Hp Hf). cbn [from_option id].
      rewrite !attach_obj_subscribers, <- app_assoc.
      split; [reflexivity|]. rewrite Hp. split; eauto.
    + rewrite (Hother key) by congruence. rewrite app_nil_r.
      split; [reflexivity|].
      destruct (createFigure_cache key0 coord w Hc) as (q & w2 & E2 & _ & Hq).
      rewrite E1 in E2. injection E2 as <-.
      destruct (pool w !! key0).
      * destruct Hq as (_ & -> & _). split; [auto|]. intros [?|?]; [auto|].
        discriminate.
      * destruct Hq as (_ & -> & _). rewrite lookup_insert_ne by exact Hne.
        split; [auto|]. intros [?|?]; [auto|discriminate].
  - rewrite (Hno key), app_nil_r. unfold figure_of. rewrite F, P.
    split; [reflexivity|]. split; [auto|]. intros [?|?]; [auto|discriminate].
Qed.

Lemma figure_requests_cons (key : string) (c : Call) (cs : list Call) :
  figure_requests key (c :: cs)
  = (if is_figure_request key c then 1 else 0) + figure_requests key cs.
Proof.
  unfold figure_requests. destruct (is_figure_request key c) eqn:E.
  - rewrite filter_cons_True by exact E. reflexivity.
  - rewrite filter_cons_False by (rewrite E; discriminate). reflexivity.
Qed.

Lemma session_figure_count (key : string) (cs : list Call) (w w' : World) :
  consistent w →
  session cs w = Some (tt, w') →
  FlyweightFigure.subscribers (default (new_figure key) (figure_of key w'))
  = FlyweightFigure.subscribers (default (new_figure key) (figure_of key w))
    ++ concat (replicate (figure_requests key cs) [RegSub; ContrastImageSub])
  ∧ (is_Some (pool w' !! key)
     ↔ is_Some (pool w !! key) ∨ figure_requests key cs ≠ 0).
Proof.
  revert w. induction cs as [|c cs IH]; intros w Hc H.
  - injection H as <-. cbn. rewrite app_nil_r. split; [reflexivity|].
    split; [auto|]. intros [?|?]; [auto|congruence].
  - destruct (call_consistent c w Hc) as (w1 & E1 & Hc1 & _).
    rewrite (session_cons c cs w w1 E1) in H.
    destruct (call_figure_count key c w w1 Hc E1) as [Hs1 Hp1].
    destruct (IH w1 Hc1 H) as [Hs Hp].
    rewrite figure_requests_cons, Hs, Hs1, Hp, Hp1.
    destruct (is_figure_request key c); cbn [Nat.add replicate concat].
    + rewrite <- !app_assoc. split; [reflexivity|].
      split; [intros _; right; discriminate | intros _; auto].
    + rewrite app_nil_r. split; [reflexivity|].
      split; [intros [[?|?]|?]; [auto|discriminate|auto] | intros [?|?]; auto].
Qed.

(** X10.  The content of the cache after any session from the start of the
    program is read off the session's figure requests, however they are
    interleaved with graph requests, undos, redos and requests for other
    keys: a key is in the pool exactly when it was requested at least once
    (with element "Figure", compared exactly), and its cached figure then
    carries two subscribers per request, regular and contrast in turn. *)
Theorem X10_cache_counts_requests :
  ∀ (cs : list Call),
    ∃ w, session cs initial = Some (tt, w)
         ∧ ∀ key,
             (is_Some (pool w !! key) ↔ figure_requests key cs ≠ 0)
             ∧ subscribers_of key w
               = concat (replicate (figure_requests key cs)
                           [RegSub; ContrastImageSub])
             ∧ length (subscribers_of key w) = 2 * figure_requests key cs.
Proof.
  intros cs.
  destruct (session_consistent cs initial consistent_initial)
    as (w & E & Hc & _).
  exists w. split; [exact E|]. intros key.
  destruct (session_figure_count key cs initial w consistent_initial E)
    as [Hs Hp].
  assert (figure_of key initial = None) as H0 by reflexivity.
  rewrite H0 in Hs. cbn [from_option id] in Hs.
  rewrite new_figure_subscribers in Hs. cbn [app] in Hs.
  assert (is_Some (pool w !! key) ↔ figure_requests key cs ≠ 0) as Hiff.
  { rewrite Hp. split; [intros [[? H]|?]; [discriminate H|auto] | auto]. }
  assert (subscribers_of key w
          = concat (replicate (figure_requests key cs)
                      [RegSub; ContrastImageSub])) as Hsubs.
  { unfold subscribers_of. destruct (figure_of key w) as [f|] eqn:Ef.
    - exact Hs.
    - destruct (figure_requests key cs) as [|n] eqn:En; [reflexivity|].
      destruct Hiff as [_ Hsome]. destruct Hsome as [p Hp']; [discriminate|].
      destruct (Hc key p Hp') as (f & Hf & _).
      rewrite (figure_of_Some key w p f Hp' Hf) in Ef. discriminate Ef. }
  split; [exact Hiff|]. split; [exact Hsubs|].
  rewrite Hsubs. apply length_concat_pairs.
Qed.

Example cache_after_interleaved_session :
  (λ w, (subscribers_of "CircleColor" w, subscribers_of "SquareBW" w,
         subscribers_of "Bar" w))
  <$> exec (session [GetDiagram "Figure" "CircleColor" "(5,5)";
                     GetDiagram "Graph" "Bar" "(15,30)";
                     GetDiagram "Figure" "SquareBW" "(2,3)";
                     CallUndo;
                     GetDiagram "figure" "SquareBW" "(0,0)";
                     GetDiagram "Figure" "CircleColor" "(7,7)";
                     CallRedo]) initial
  = Some ([RegSub; ContrastImageSub; RegSub; ContrastImageSub],
          [RegSub; ContrastImageSub], []).
Proof. vm_compute. reflexivity. Qed.

(** ** Figure requests and the graph side *)

Lemma getDiagram_Figure (key coord : string) :
  DiagramFactory.getDiagram "Figure" key coord
  = DiagramFactory.createFigure key coord.
Proof. reflexivity. Qed.

(** X11.  Figure requests are outside the history.  On a state that
    satisfies the cache invariant a figure request returns and leaves the
    undo stack, the redo stack, the allocation count and both builders as
    they were: it is not recorded, and unlike a graph request it does not
    empty the redo stack.  So after a graph request, an undo and a figure
    request, [redo()] still brings the graph command back. *)
Theorem X11_figure_requests_are_not_history :
  ∀ (key coord : string) (w : World),
    consistent w →
    (∃ w', DiagramFactory.getDiagram "Figure" key coord w = Some (tt, w')
           ∧ undoStack w' = undoStack w ∧ redoStack w' = redoStack w
           ∧ next_cmd w' = next_cmd w
           ∧ BarBuilder_coord w' = BarBuilder_coord w
           ∧ LineBuilder_coord w' = LineBuilder_coord w)
    ∧ (∀ type c, ∃ w4,
          session [GetDiagram "Graph" type c; CallUndo;
                   GetDiagram "Figure" key coord; CallRedo] w = Some (tt, w4)
          ∧ undoStack w4 = mkCommand (next_cmd w) type c :: undoStack w
          ∧ redoStack w4 = []).
Proof.
  intros key coord w Hc. split.
  - destruct (createFigure_extends key coord w Hc) as (w' & E & _).
    exists w'. rewrite getDiagram_Figure. split; [exact E|].
    apply (createFigure_same_graph_side key coord w w' E).
  - intros type c.
    destruct (DiagramFactory_createGraph_run type c w)
      as (w1 & E1 & U1 & R1 & _ & _ & _ & _ & F1 & P1).
    destruct (DiagramFactory_undo_run w1) as (w2 & E2 & H2).
    rewrite U1, R1 in H2.
    destruct H2 as (U2 & R2 & _ & _ & _ & _ & F2 & P2).
    assert (consistent w2) as Hc2.
    { apply (consistent_same_cache w w2); [congruence..|exact Hc]. }
    destruct (createFigure_extends key coord w2 Hc2) as (w3 & E3 & _).
    destruct (createFigure_same_graph_side key coord w2 w3 E3)
      as (U3 & R3 & _).
    destruct (DiagramFactory_redo_run w3) as (w4 & E4 & H4).
    rewrite R3, R2, U3, U2 in H4. destruct H4 as (U4 & R4 & _).
    exists w4.
    rewrite (session_cons _ _ w w1) by exact E1.
    rewrite (session_cons _ _ w1 w2) by exact E2.
    rewrite (session_cons _ _ w2 w3) by exact E3.
    rewrite (session_cons _ _ w3 w4) by exact E4.
    auto.
Qed.

Lemma X11_figure_requests_are_not_history_fresh :
  ∃ w4,
    session [GetDiagram "Graph" "Bar" "(15,30)"; CallUndo;
             GetDiagram "Figure" "CircleColor" "(5,5)"; CallRedo] initial
    = Some (tt, w4)
    ∧ undoStack w4 = [mkCommand 0 "Bar" "(15,30)"]
    ∧ redoStack w4 = [].
Proof.
  assert (consistent initial) as Hc.
  { intros key p H. cbn in H. rewrite lookup_empty in H. discriminate H. }
  destruct (X11_figure_requests_are_not_history
              "CircleColor" "(5,5)" initial Hc) as [_ H].
  exact (H "Bar" "(15,30)").
Defined.

(** X12.  The coordinate of a figure request is only printed, never
    stored: on a state that satisfies the cache invariant, two requests for
    the same key with different coordinates end in the same pool and the
    same flyweights, and their outputs differ in the coordinate line
    alone. *)
Theorem X12_coordinate_is_not_stored :
  ∀ (key c1 c2 : string) (w : World),
    consistent w →
    ∃ w1 w2 rest,
      DiagramFactory.getDiagram "Figure" key c1 w = Some (tt, w1)
      ∧ DiagramFactory.getDiagram "Figure" key c2 w = Some (tt, w2)
      ∧ figures w1 = figures w2 ∧ pool w1 = pool w2
      ∧ cout w1 = cout w ++ ("Coordinates: " +:+ c1 +:+ endl) :: rest
      ∧ cout w2 = cout w ++ ("Coordinates: " +:+ c2 +:+ endl) :: rest.
Proof.
  intros key c1 c2 w Hc.
  destruct (FlyweightFactory_getFigure_total key w) as (p & w0 & E).
  destruct (consistent_getFigure key w p w0 Hc E)
    as (_ & _ & Hf & _ & _ & _ & Hout & _).
  rewrite !getDiagram_Figure, !DiagramFactory_createFigure_unfold, E, Hf.
  cbv zeta. do 3 eexists.
  split; [reflexivity|]. split; [reflexivity|].
  split; [reflexivity|]. split; [reflexivity|].
  cbn [cout set_cout set_figures]. rewrite Hout. split; reflexivity.
Qed.

Lemma X12_coordinate_is_not_stored_fresh :
  ∃ w1 w2,
    DiagramFactory.getDiagram "Figure" "SquareBW" "(2,3)" initial
    = Some (tt, w1)
    ∧ DiagramFactory.getDiagram "Figure" "SquareBW" "(9,9)" initial
      = Some (tt, w2)
    ∧ figures w1 = figures w2 ∧ pool w1 = pool w2.
Proof.
  assert (consistent initial) as Hc.
  { intros key p H. cbn in H. rewrite lookup_empty in H. discriminate H. }
  destruct (X12_coordinate_is_not_stored "SquareBW" "(2,3)" "(9,9)" initial Hc)
    as (w1 & w2 & rest & E1 & E2 & F & P & _).
  exists w1, w2. auto.
Defined.

(** ** Flyweights through their handles *)

Lemma attach_each_run (p : nat) (subs : list DrawSubscriber) (w : World)
    (f : FlyweightFigure) :
  figures w !! p = Some f →
  ∃ w1 f1, attach_each p subs w = Some (tt, w1)
           ∧ figures w1 !! p = Some f1
           ∧ FlyweightFigure.type f1 = FlyweightFigure.type f
           ∧ FlyweightFigure.is_colored f1 = FlyweightFigure.is_colored f
           ∧ FlyweightFigure.subscribers f1
             = FlyweightFigure.subscribers f ++ subs
           ∧ (∀ q, q ≠ p → figures w1 !! q = figures w !! q)
           ∧ cout w1 = cout w ∧ pool w1 = pool w.
Proof.
  revert w f. induction subs as [|sub subs IH]; intros w f Hf.
  - exists w, f. rewrite app_nil_r. auto 10.
  - set (w0 := set_figures (<[p := FlyweightFigure.attach_obj f sub]>
                              (figures w)) w).
    assert (figures w0 !! p = Some (FlyweightFigure.attach_obj f sub)) as Hf0
      by (apply list_lookup_insert_eq; eapply lookup_lt_Some; eauto).
    destruct (IH w0 _ Hf0) as (w1 & f1 & E & Hf1 & Ht & Hv & Hs & Hq & Hc & Hp).
    exists w1, f1. cbn [attach_each].
    rewrite bind_run, (attachSubscriber_run p sub w f Hf).
    split; [exact E|]. split; [exact Hf1|].
    rewrite Ht, Hv, Hs, attach_obj_type, attach_obj_is_colored,
      attach_obj_subscribers, <- app_assoc.
    repeat split; try assumption.
    intros q Hne. rewrite (Hq q Hne).
    apply list_lookup_insert_ne. congruence.
Qed.

(** X13.  A flyweight notifies in attachment order.  Through a live
    handle, attaching the subscribers of a list one after the other extends
    the object's own vector by that list, keeps its key and variant and
    touches no other flyweight, the pool or the output; a [draw()] through
    the handle then writes the figure's line followed by one notification
    per entry of the extended vector, oldest attachment first. *)
Theorem X13_flyweight_notifies_in_attachment_order :
  ∀ (p : nat) (f : FlyweightFigure) (subs : list DrawSubscriber) (w : World),
    figures w !! p = Some f →
    ∃ w1 f1,
      attach_each p subs w = Some (tt, w1)
      ∧ figures w1 !! p = Some f1
      ∧ FlyweightFigure.type f1 = FlyweightFigure.type f
      ∧ FlyweightFigure.is_colored f1 = FlyweightFigure.is_colored f
      ∧ FlyweightFigure.subscribers f1 = FlyweightFigure.subscribers f ++ subs
      ∧ (∀ q, q ≠ p → figures w1 !! q = figures w !! q)
      ∧ pool w1 = pool w ∧ cout w1 = cout w
      ∧ FlyweightFigure.draw p w1
        = Some (tt, set_cout
                      (cout w1 ++ draw_header f
                         :: map (λ s, notification s (draw_message f))
                              (FlyweightFigure.subscribers f ++ subs)) w1).
Proof.
  intros p f subs w Hf.
  destruct (attach_each_run p subs w f Hf)
    as (w1 & f1 & E & Hf1 & Ht & Hv & Hs & Hq & Hc & Hp).
  exists w1, f1. rewrite (FlyweightFigure_draw_run p w1 f1 Hf1), Hs.
  destruct (draw_text_by_variant f1 f Ht Hv) as [-> ->]. auto 10.
Qed.

Lemma X13_flyweight_notifies_in_attachment_order_BW :
  let w := set_figures [BWFigure "SquareBW" [RegSub]] initial in
  ∃ w1,
    attach_each 0 [ContrastImageSub; RegSub] w = Some (tt, w1)
    ∧ FlyweightFigure.draw 0 w1
      = Some (tt, set_cout
                    ["[B/W Flyweight] Drawing black and white figure of type: SquareBW"
                       +:+ nl;
                     "[Regular Subscriber] B/W Figure drawn" +:+ nl;
                     "[Contrast Image Subscriber] B/W Figure drawn" +:+ nl;
                     "[Regular Subscriber] B/W Figure drawn" +:+ nl] w1).
Proof.
  intros w.
  destruct (X13_flyweight_notifies_in_attachment_order
              0 (BWFigure "SquareBW" [RegSub]) [ContrastImageSub; RegSub] w
              eq_refl)
    as (w1 & f1 & E & _ & _ & _ & _ & _ & _ & Hc & D).
  exists w1. split; [exact E|]. rewrite D, Hc. reflexivity.
Defined.

(** ** Export *)

Lemma attach_all_same_class (d : Diagram) (subs : list DrawSubscriber) :
  export_line (foldl Diagram.attachSubscriber d subs) = export_line d.
Proof.
  revert d. induction subs as [|s subs IH]; intros d; [reflexivity|].
  cbn [foldl]. rewrite IH. destruct d; reflexivity.
Qed.

(** X14.  Exporting a diagram notifies nobody: whatever subscribers have
    been attached, [accept] with the export visitor writes the one line of
    the diagram's class (PNG for a graph, JPG for a figure) and changes
    nothing else. *)
Theorem X14_export_notifies_nobody :
  ∀ (d : Diagram) (subs : list DrawSubscriber) (w : World),
    Diagram.accept (foldl Diagram.attachSubscriber d subs) w
    = Some (tt, set_cout (cout w ++ [export_line d]) w).
Proof.
  intros d subs w. rewrite <- (attach_all_same_class d subs).
  destruct (foldl Diagram.attachSubscriber d subs); reflexivity.
Qed.

(** ** Allocation of commands *)

Lemma call_allocates (c : Call) (w w1 : World) :
  call c w = Some (tt, w1) →
  next_cmd w1 = next_cmd w + (if is_graph_request c then 1 else 0)
  ∧ length (undoStack w1) + length (redoStack w1)
    ≤ length (undoStack w) + length (redoStack w)
      + (if is_graph_request c then 1 else 0).
Proof.
  intros H. destruct c as [element type coord| |];
    cbn [call is_graph_request] in *.
  - unfold DiagramFactory.getDiagram in H.
    destruct (String.eqb element "Graph").
    + destruct (DiagramFactory_createGraph_run type coord w)
        as (w' & E & U & R & N & _).
      rewrite E in H. injection H as <-. rewrite U, R, N. cbn. lia.
    + destruct (String.eqb element "Figure").
      * destruct (createFigure_same_graph_side type coord w w1 H)
          as (-> & -> & -> & _). lia.
      * injection H as <-. lia.
  - destruct (DiagramFactory_undo_run w) as (w' & E & H1).
    rewrite E in H. injection H as <-.
    destruct (undoStack w) as [|c0 rest] eqn:Eu;
      [subst w'; rewrite Eu; cbn; lia|].
    destruct H1 as (-> & -> & _ & _ & _ & -> & _). cbn. lia.
  - destruct (DiagramFactory_redo_run w) as (w' & E & H1).
    rewrite E in H. injection H as <-.
    destruct (redoStack w) as [|c0 rest] eqn:Er;
      [subst w'; rewrite Er; cbn; lia|].
    destruct H1 as (-> & -> & _ & _ & _ & -> & _). cbn. lia.
Qed.

Lemma graph_requests_cons (c : Call) (cs : list Call) :
  graph_requests (c :: cs)
  = (if is_graph_request c then 1 else 0) + graph_requests cs.
Proof.
  unfold graph_requests. destruct (is_graph_request c) eqn:E.
  - rewrite filter_cons_True by exact E. reflexivity.
  - rewrite filter_cons_False by (rewrite E; discriminate). reflexivity.
Qed.

Lemma session_allocates (cs : list Call) (w w' : World) :
  session cs w = Some (tt, w') →
  next_cmd w' = next_cmd w + graph_requests cs
  ∧ length (undoStack w') + length (redoStack w')
    ≤ length (undoStack w) + length (redoStack w) + graph_requests cs.
Proof.
  revert w. induction cs as [|c cs IH]; intros w H.
  - injection H as <-. cbn. lia.
  - cbn [session] in H. rewrite bind_run in H.
    destruct (call c w) as [[[] w1]|] eqn:E1; [|discriminate H].
    destruct (call_allocates c w w1 E1) as [N1 L1].
    destruct (IH w1 H) as [N L].
    rewrite graph_requests_cons. lia.
Qed.

(** X15.  Commands are allocated by graph requests and by nothing else.
    After any session from the start of the program the number of commands
    allocated is the number of calls with element "Graph" (recognised style
    or not); [redo()] pushes back the command it popped instead of making a
    new one, so the two stacks together never hold more commands than
    that. *)
Theorem X15_one_command_per_graph_request :
  ∀ (cs : list Call),
    ∃ w, session cs initial = Some (tt, w)
         ∧ next_cmd w = graph_requests cs
         ∧ length (undoStack w) + length (redoStack w) ≤ graph_requests cs.
Proof.
  intros cs.
  destruct (session_consistent cs initial consistent_initial) as (w & E & _).
  exists w. split; [exact E|].
  destruct (session_allocates cs initial w E) as [N L]. cbn in N, L. auto.
Qed.
